(** * The Railway YouTube downloader script (main.py), embedded in Rocq

    The script is glue around an external extraction library and the
    filesystem.  The embedding keeps the control flow of [main.py] as it is
    written (loops, [try]/[except]/[finally], early [return]) in a small
    state-and-exception monad that also records the trace of external calls
    and log lines.  Everything the script cannot decide by itself (the
    extraction library, failing system calls, the user's interrupt) is
    answered by an oracle [Env], over which every theorem quantifies. *)

From Stdlib Require Import String Ascii.
From stdpp Require Import gmap strings list fin_maps.

Local Open Scope string_scope.
Local Open Scope list_scope.

(** ** Paths: the fragment of [posixpath] the script uses *)

Module Path.

Local Open Scope string_scope.

Definition is_sep (c : ascii) : bool := Ascii.eqb c "/".

(** [p.endswith('/')] *)
Fixpoint endswith_sep (p : string) : bool :=
  match p with
  | EmptyString => false
  | String c EmptyString => is_sep c
  | String _ r => endswith_sep r
  end.

(** ['/' in p] *)
Fixpoint has_sep (p : string) : bool :=
  match p with
  | EmptyString => false
  | String c r => is_sep c || has_sep r
  end.

(** [p == '/' * len(p)] *)
Fixpoint all_sep (p : string) : bool :=
  match p with
  | EmptyString => true
  | String c r => is_sep c && all_sep r
  end.

(** [p.rstrip('/')] *)
Fixpoint rstrip_sep (p : string) : string :=
  match p with
  | EmptyString => EmptyString
  | String c r =>
      match rstrip_sep r with
      | EmptyString => if is_sep c then EmptyString else String c EmptyString
      | r' => String c r'
      end
  end.

(** [i = p.rfind('/') + 1; (p[:i], p[i:])] *)
Fixpoint rsplit_sep (p : string) : string * string :=
  match p with
  | EmptyString => (EmptyString, EmptyString)
  | String c r =>
      let (h, t) := rsplit_sep r in
      match h with
      | EmptyString =>
          if is_sep c then (String c EmptyString, t)
          else (EmptyString, String c t)
      | _ => (String c h, t)
      end
  end.

(** [os.path.join(a, b)] *)
Definition join (a b : string) : string :=
  if String.prefix "/" b then b
  else if String.eqb a "" || endswith_sep a then a ++ b
  else a ++ "/" ++ b.

(** [os.path.split(p)] *)
Definition split (p : string) : string * string :=
  let (head, tail) := rsplit_sep p in
  if negb (String.eqb head "") && negb (all_sep head)
  then (rstrip_sep head, tail)
  else (head, tail).

(** [os.path.dirname(p)] and [os.path.basename(p)] *)
Definition dirname (p : string) : string := fst (split p).
Definition basename (p : string) : string := snd (rsplit_sep p).

(** A directory path as [tempfile.mkdtemp] returns it: not empty and
    without a trailing separator. *)
Definition wf_dir (d : string) : bool :=
  negb (String.eqb d "") && negb (endswith_sep d).

(** A directory entry as [os.listdir] returns it: not empty and without
    a separator. *)
Definition wf_name (f : string) : bool :=
  negb (String.eqb f "") && negb (has_sep f).

End Path.

(** ** Data model *)

(** A file of the workspace: its name and its size in bytes. *)
Abbreviation file := (string * N)%type.

(** The filesystem: each directory that exists, with its entries in the
    order [os.listdir] reports them. *)
Abbreviation FS := (gmap string (list file)).

(** Python exceptions, as far as the handlers of the script tell them
    apart: the subclasses of [Exception], and [KeyboardInterrupt]. *)
Inductive exn : Type :=
| Exception (msg : string)
| KeyboardInterrupt.

(** Values of the option dictionaries handed to [yt_dlp.YoutubeDL]. *)
Inductive pyval : Type :=
| PBool (b : bool)
| PStr (s : string).

Abbreviation ydl_opts := (gmap string pyval).

(** The metadata record [extract_info] returns; every field may be absent. *)
Record info : Type := {
  title : option string;
  duration : option N;
  uploader : option string;
  view_count : option N
}.

Inductive level : Type := INFO | WARNING | ERROR.

(** Arguments interpolated into a log line. [AMegabytes b] stands for
    [b / (1024 * 1024)] printed with two decimals. *)
Inductive arg : Type :=
| AStr (s : string)
| ANat (n : nat)
| ANum (n : N)
| AMegabytes (bytes : N).

Inductive method : Type :=
| test_youtube_access_m
| download_video_m (url : string)
| cleanup_m.

(** What a run does that is visible from outside. *)
Inductive event : Type :=
| Call (m : method)
| Log (lvl : level) (fmt : string) (args : list arg)
| Mkdtemp
| ExtractInfo (url : string)
| YdlDownload (url : string)
| Listdir (dir : string)
| Getsize (path : string)
| Remove (path : string)
| Exists (path : string)
| Rmtree (dir : string)
| Sleep (secs : nat).

(** The oracle: the answers of the outside world. The [nat] is the number
    of oracle calls made before. Filesystem calls fail with an [OSError]
    (a message); the blocking calls into the extraction library raise any
    exception, [ydl.download] leaves the filesystem as it pleases whether
    it raises or not, and [time.sleep] can only be interrupted. A
    [shutil.rmtree] that fails has unlinked some paths before: the oracle
    says which. *)
Record Env : Type := {
  env_now : string;
  env_version : string;
  env_mkdtemp : FS -> string + string;
  env_extract_info : nat -> ydl_opts -> string -> exn + option info;
  env_download : nat -> ydl_opts -> string -> FS -> FS * option exn;
  env_remove_fault : nat -> string -> option string;
  env_rmtree_fault : nat -> string -> option string;
  env_rmtree_unlinked : nat -> string -> bool;
  env_sleep_interrupt : nat -> bool
}.

(** ** The monad: state, exceptions and a trace *)

Record St : Type := { fs : FS; clock : nat }.

Record Out (A : Type) : Type := mkOut {
  res : exn + A;
  st : St;
  evs : list event
}.
Arguments mkOut {A} _ _ _.
Arguments res {A} _.
Arguments st {A} _.
Arguments evs {A} _.

Definition M (A : Type) : Type := St -> Out A.

(** The outcome [o], after the events [tr]. *)
Definition after {A} (tr : list event) (o : Out A) : Out A :=
  let '(mkOut r s tr') := o in mkOut r s (tr ++ tr').

Definition ret {A} (a : A) : M A :=
  fun s => mkOut (inr a) s [].

Definition bind {A B} (m : M A) (f : A -> M B) : M B :=
  fun s =>
    let '(mkOut r s' tr) := m s in
    match r with
    | inl e => mkOut (inl e) s' tr
    | inr a => after tr (f a s')
    end.

#[global] Instance M_ret : MRet M := @ret.
#[global] Instance M_bind : MBind M := fun A B f m => bind m f.

Definition raise {A} (e : exn) : M A :=
  fun s => mkOut (inl e) s [].

Definition emit (e : event) : M unit :=
  fun s => mkOut (inr tt) s [e].

Definition get_fs : M FS :=
  fun s => mkOut (inr (fs s)) s [].

Definition put_fs (f : FS) : M unit :=
  fun s => mkOut (inr tt) {| fs := f; clock := clock s |} [].

(** The state after one oracle call. *)
Definition ticked (s : St) : St := {| fs := fs s; clock := S (clock s) |}.

(** Reads the clock and advances it: one oracle call. *)
Definition tick : M nat :=
  fun s => mkOut (inr (clock s)) (ticked s) [].

(** One [except] clause: the exceptions it catches and its body. *)
Definition handler (A : Type) : Type := (exn -> bool) * (exn -> M A).

(** [try: m  except ...: ...  except ...: ...]: the first clause that
    catches the exception runs; an exception no clause catches propagates. *)
Definition try_except {A} (m : M A) (handlers : list (handler A)) : M A :=
  fun s =>
    let '(mkOut r s' tr) := m s in
    match r with
    | inl e =>
        match List.find (fun h => fst h e) handlers with
        | Some h => after tr (snd h e s')
        | None => mkOut (inl e) s' tr
        end
    | inr a => mkOut (inr a) s' tr
    end.

(** [try: m  finally: fin]: [fin] runs however [m] ends; the outcome of [m]
    stands unless [fin] raises. *)
Definition try_finally {A} (m : M A) (fin : M unit) : M A :=
  fun s =>
    let '(mkOut r s' tr) := m s in
    let '(mkOut r' s'' tr') := fin s' in
    mkOut (match r' with inl e => inl e | inr _ => r end) s'' (tr ++ tr').

Definition is_Exception (e : exn) : bool :=
  match e with Exception _ => true | KeyboardInterrupt => false end.

Definition is_KeyboardInterrupt (e : exn) : bool :=
  match e with KeyboardInterrupt => true | Exception _ => false end.

(** A bare [except:] *)
Definition any_exn (_ : exn) : bool := true.

(** [str(e)] *)
Definition str_exn (e : exn) : string :=
  match e with Exception msg => msg | KeyboardInterrupt => "" end.

Definition log (lvl : level) (fmt : string) (args : list arg) : M unit :=
  emit (Log lvl fmt args).


(** ** System and library calls *)

Section Program.

Variable E : Env.

(** The entry of the filesystem a path names, if any. *)
Definition lookup_file (path : string) (f : FS) : option file :=
  match f !! Path.dirname path with
  | Some entries =>
      List.find (fun e => String.eqb (fst e) (Path.basename path)) entries
  | None => None
  end.

Definition remove_entry (name : string) (entries : list file) : list file :=
  List.filter (fun e => negb (String.eqb (fst e) name)) entries.

(** [tempfile.mkdtemp()]: a directory that did not exist before. *)
Definition tempfile_mkdtemp : M string :=
  emit Mkdtemp;;
  f ← get_fs;
  match env_mkdtemp E f with
  | inl msg => raise (Exception msg)
  | inr d =>
      match f !! d with
      | Some _ => raise (Exception "FileExistsError")
      | None => put_fs (<[d := []]> f);; mret d
      end
  end.

(** [ydl.extract_info(url, download=False)] *)
Definition ydl_extract_info (opts : ydl_opts) (url : string)
  : M (option info) :=
  emit (ExtractInfo url);;
  t ← tick;
  match env_extract_info E t opts url with
  | inl e => raise e
  | inr i => mret i
  end.

(** [ydl.download([url])] *)
Definition ydl_download (opts : ydl_opts) (url : string) : M unit :=
  emit (YdlDownload url);;
  t ← tick;
  f ← get_fs;
  let (f', e) := env_download E t opts url f in
  put_fs f';;
  match e with
  | Some e => raise e
  | None => mret tt
  end.

(** [os.listdir(dir)] *)
Definition os_listdir (dir : string) : M (list string) :=
  emit (Listdir dir);;
  f ← get_fs;
  match f !! dir with
  | Some entries => mret (List.map fst entries)
  | None => raise (Exception "FileNotFoundError")
  end.

(** [os.path.getsize(path)] *)
Definition os_path_getsize (path : string) : M N :=
  emit (Getsize path);;
  f ← get_fs;
  match lookup_file path f with
  | Some e => mret (snd e)
  | None => raise (Exception "FileNotFoundError")
  end.

(** [os.remove(path)] *)
Definition os_remove (path : string) : M unit :=
  emit (Remove path);;
  t ← tick;
  f ← get_fs;
  match env_remove_fault E t path with
  | Some msg => raise (Exception msg)
  | None =>
      match f !! Path.dirname path, lookup_file path f with
      | Some entries, Some _ =>
          put_fs (<[Path.dirname path :=
                      remove_entry (Path.basename path) entries]> f)
      | _, _ => raise (Exception "FileNotFoundError")
      end
  end.

(** [os.path.exists(path)] *)
Definition os_path_exists (path : string) : M bool :=
  emit (Exists path);;
  f ← get_fs;
  mret (match f !! path, lookup_file path f with
        | None, None => false
        | _, _ => true
        end).

(** [path] is [dir], or lies below it. *)
Definition below (dir path : string) : bool :=
  String.eqb path dir || String.prefix (dir ++ "/") path.

(** What a [shutil.rmtree(dir)] that succeeds leaves: no directory at
    [dir] or below. *)
Definition remove_tree (dir : string) (f : FS) : FS :=
  filter (fun kv => below dir (fst kv) = false) f.

(** What a [shutil.rmtree(dir)] that fails leaves: [dir] itself is still
    there; the files and the sub-directories below it that were unlinked
    before the failure are gone. *)
Definition remove_some (unlinked : string -> bool) (dir : string) (f : FS)
  : FS :=
  map_imap
    (fun k entries =>
       if below dir k then
         if negb (String.eqb k dir) && unlinked k then None
         else
           Some (List.filter
                   (fun e => negb (unlinked (Path.join k (fst e)))) entries)
       else Some entries)
    f.

(** [shutil.rmtree(dir)] *)
Definition shutil_rmtree (dir : string) : M unit :=
  emit (Rmtree dir);;
  t ← tick;
  f ← get_fs;
  match f !! dir with
  | Some _ =>
      match env_rmtree_fault E t dir with
      | Some msg =>
          put_fs (remove_some (env_rmtree_unlinked E t) dir f);;
          raise (Exception msg)
      | None => put_fs (remove_tree dir f)
      end
  | None =>
      match lookup_file dir f with
      | Some _ => raise (Exception "NotADirectoryError")
      | None => raise (Exception "FileNotFoundError")
      end
  end.

(** [time.sleep(secs)] *)
Definition time_sleep (secs : nat) : M unit :=
  emit (Sleep secs);;
  t ← tick;
  if env_sleep_interrupt E t then raise KeyboardInterrupt else mret tt.

(** [info.get(key, 'Unknown')]; [info] is [None] when the library
    swallowed an error, and [None] has no [get]. *)
Definition info_get (i : option info) (field : info -> option arg) : M arg :=
  match i with
  | None => raise (Exception "'NoneType' object has no attribute 'get'")
  | Some r => mret (default (AStr "Unknown") (field r))
  end.

End Program.

(** ** The script *)

Record YouTubeDownloader : Type := { download_dir : string }.

Definition test_urls : list string :=
  [ "https://www.youtube.com/watch?v=dQw4w9WgXcQ";
    "https://www.youtube.com/watch?v=jNQXAC9IVRw" ].

Definition test_videos : list string :=
  [ "https://www.youtube.com/watch?v=dQw4w9WgXcQ";
    "https://www.youtube.com/watch?v=jNQXAC9IVRw" ].

(** [{'quiet': True, 'no_warnings': True}] *)
Definition probe_opts : ydl_opts :=
  {[ "quiet" := PBool true; "no_warnings" := PBool true ]}.

(** The dictionary [ydl_opts] of [download_video] *)
Definition download_opts (self : YouTubeDownloader) (max_quality : bool)
  : ydl_opts :=
  {[ "outtmpl" := PStr (Path.join (download_dir self) "%(title)s.%(ext)s");
     "format" := PStr (if max_quality then "best" else "worst");
     "noplaylist" := PBool true;
     "extractaudio" := PBool false;
     "writesubtitles" := PBool false;
     "writeautomaticsub" := PBool false;
     "ignoreerrors" := PBool true ]}.

(** Truth value of [downloaded_file] in [if downloaded_file:] *)
Definition truthy (o : option string) : bool :=
  match o with
  | Some p => negb (String.eqb p "")
  | None => false
  end.

(** [filename.startswith('.')] *)
Definition hidden (filename : string) : bool := String.prefix "." filename.

Section Script.

Variable E : Env.

(** [YouTubeDownloader.__init__] *)
Definition init : M YouTubeDownloader :=
  d ← tempfile_mkdtemp E;
  log INFO "🗂️ Download directory: {self.download_dir}" [AStr d];;
  mret {| download_dir := d |}.

(** The body of the [for] of [test_youtube_access] for one URL:
    [true] when it returned [True], [false] when it went on. *)
Definition test_one (i : nat) (url : string) : M bool :=
  log INFO "🧪 Testing YouTube access #{i}: {url}" [ANat i; AStr url];;
  try_except
    (info ← ydl_extract_info E probe_opts url;
     log INFO "✅ Test #{i} SUCCESS:" [ANat i];;
     a ← info_get info (fun r => AStr <$> title r);
     log INFO "   • Title: {info.get('title', 'Unknown')}" [a];;
     a ← info_get info (fun r => ANum <$> duration r);
     log INFO "   • Duration: {info.get('duration', 'Unknown')} seconds" [a];;
     a ← info_get info (fun r => AStr <$> uploader r);
     log INFO "   • Uploader: {info.get('uploader', 'Unknown')}" [a];;
     mret true)
    [ (is_Exception,
       fun e =>
         log ERROR "❌ Test #{i} FAILED: {str(e)}" [ANat i; AStr (str_exn e)];;
         mret false) ].

(** [for i, url in enumerate(urls, i): ...] *)
Fixpoint test_loop (i : nat) (urls : list string) : M bool :=
  match urls with
  | [] => mret false
  | url :: rest =>
      returned ← test_one i url;
      if (returned : bool) then mret true else test_loop (S i) rest
  end.

(** [test_youtube_access], for any list of probe URLs *)
Definition test_youtube_access_on (urls : list string)
    (self : YouTubeDownloader) : M bool :=
  emit (Call test_youtube_access_m);;
  returned ← test_loop 1 urls;
  if (returned : bool) then mret true
  else
    log ERROR "❌ All YouTube access tests failed!" [];;
    mret false.

Definition test_youtube_access : YouTubeDownloader -> M bool :=
  test_youtube_access_on test_urls.

(** [for filename in names: if not filename.startswith('.'): ... return
    file_path]; [None] when the loop ran to its end. *)
Fixpoint find_downloaded (self : YouTubeDownloader) (names : list string)
  : M (option string) :=
  match names with
  | [] => mret None
  | filename :: rest =>
      if negb (hidden filename) then
        let file_path := Path.join (download_dir self) filename in
        file_size ← os_path_getsize file_path;
        log INFO "✅ Download SUCCESS:" [];;
        log INFO "   • File: {filename}" [AStr filename];;
        log INFO "   • Size: {file_size:.2f} MB" [AMegabytes file_size];;
        log INFO "   • Path: {file_path}" [AStr file_path];;
        mret (Some file_path)
      else find_downloaded self rest
  end.

(** [download_video] *)
Definition download_video (self : YouTubeDownloader) (url : string)
    (max_quality : bool) : M (option string) :=
  emit (Call (download_video_m url));;
  try_except
    (log INFO "📥 Starting download: {url}" [AStr url];;
     let ydl_opts := download_opts self max_quality in
     info ← ydl_extract_info E ydl_opts url;
     log INFO "📹 Video Info:" [];;
     a ← info_get info (fun r => AStr <$> title r);
     log INFO "   • Title: {info.get('title', 'Unknown')}" [a];;
     a ← info_get info (fun r => ANum <$> duration r);
     log INFO "   • Duration: {info.get('duration', 'Unknown')} seconds" [a];;
     a ← info_get info (fun r => AStr <$> uploader r);
     log INFO "   • Uploader: {info.get('uploader', 'Unknown')}" [a];;
     a ← info_get info (fun r => ANum <$> view_count r);
     log INFO "   • View Count: {info.get('view_count', 'Unknown')}" [a];;
     log INFO "🚀 Starting download..." [];;
     ydl_download E ydl_opts url;;
     names ← os_listdir (download_dir self);
     found ← find_downloaded self names;
     match found with
     | Some file_path => mret (Some file_path)
     | None =>
         log ERROR "❌ Downloaded file not found!" [];;
         mret None
     end)
    [ (is_Exception,
       fun e =>
         log ERROR "❌ Download failed: {str(e)}" [AStr (str_exn e)];;
         mret None) ].

(** [cleanup] *)
Definition cleanup (self : YouTubeDownloader) : M unit :=
  emit (Call cleanup_m);;
  try_except
    (present ← os_path_exists (download_dir self);
     if (present : bool) then
       shutil_rmtree E (download_dir self);;
       log INFO "🗑️ Cleaned up: {self.download_dir}"
         [AStr (download_dir self)]
     else mret tt)
    [ (is_Exception,
       fun e => log WARNING "⚠️ Cleanup failed: {e}" [AStr (str_exn e)]) ].

(** Lines 155 to 170 of [main]: one video is downloaded and its file
    deleted. *)
Definition download_and_delete (downloader : YouTubeDownloader) (i : nat)
    (video_url : string) : M unit :=
  log INFO "\n📺 DOWNLOADING VIDEO #{i}" [ANat i];;
  log INFO "🔗 URL: {video_url}" [AStr video_url];;
  downloaded_file ← download_video downloader video_url true;
  if truthy downloaded_file then
    log INFO "✅ Video #{i} downloaded successfully!" [ANat i];;
    try_except
      (os_remove E (default "" downloaded_file);;
       log INFO "🗑️ Cleaned up: {os.path.basename(downloaded_file)}"
         [AStr (Path.basename (default "" downloaded_file))])
      [ (any_exn, fun _ => mret tt) ]
  else
    log ERROR "❌ Video #{i} download failed!" [ANat i].

(** Lines 172 to 175 of [main]: [if i < len(test_videos): ...] *)
Definition wait_between (i n : nat) : M unit :=
  if (i <? n)%nat then
    log INFO "⏳ Waiting 10 seconds before next download..." [];;
    time_sleep E 10
  else mret tt.

(** [for i, video_url in enumerate(videos, i): ...], where [n] is the
    length of the whole list. *)
Fixpoint download_loop (downloader : YouTubeDownloader) (n i : nat)
    (videos : list string) : M unit :=
  match videos with
  | [] => mret tt
  | video_url :: rest =>
      download_and_delete downloader i video_url;;
      wait_between i n;;
      download_loop downloader n (S i) rest
  end.

(** The body of the [try] of [main] *)
Definition main_try (downloader : YouTubeDownloader) : M unit :=
  log INFO "🧪 Testing YouTube access from Railway..." [];;
  ok ← test_youtube_access downloader;
  if negb (ok : bool) then
    log ERROR "❌ Cannot access YouTube from this Railway instance!" [];;
    log ERROR "💡 Possible issues:" [];;
    log ERROR "   • IP blocked by YouTube" [];;
    log ERROR "   • Geographical restrictions" [];;
    log ERROR "   • Network configuration issues" [];;
    mret tt
  else
    log INFO "✅ YouTube access confirmed!" [];;
    download_loop downloader (length test_videos) 1 test_videos;;
    log INFO "🎉 All downloads completed!" [].

(** The [try] of [main] with its two [except] clauses *)
Definition main_guarded (downloader : YouTubeDownloader) : M unit :=
  try_except (main_try downloader)
    [ (is_KeyboardInterrupt,
       fun _ => log INFO "⚠️ Download interrupted by user" []);
      (is_Exception,
       fun e =>
         log ERROR "💥 Unexpected error: {str(e)}" [AStr (str_exn e)]) ].

(** [main] *)
Definition main : M unit :=
  log INFO "🚀 YouTube Downloader for Railway - Starting..." [];;
  log INFO "🕐 Current time: {datetime.now()}" [AStr (env_now E)];;
  log INFO "🐍 Python version: {sys.version}" [AStr (env_version E)];;
  downloader ← init;
  try_finally
    (main_guarded downloader)
    (cleanup downloader;;
     log INFO "👋 YouTube Downloader finished!" []).

(** The exit status of [python main.py] once [main] has ended: an
    exception that leaves [main] ends the process with a traceback. *)
Definition exit_status (o : Out unit) : Z :=
  match res o with
  | inr _ => 0
  | inl (Exception _) => 1
  | inl KeyboardInterrupt => 130
  end.

End Script.

(** ** Observations on traces *)

Definition is_cleanup_call (e : event) : bool :=
  match e with Call cleanup_m => true | _ => false end.

(** A call of [download_video], or of the library's [download]. *)
Definition is_download_attempt (e : event) : bool :=
  match e with
  | Call (download_video_m _) | YdlDownload _ => true
  | _ => false
  end.

(** A call of [test_youtube_access], or of the library's [extract_info]. *)
Definition is_probe_attempt (e : event) : bool :=
  match e with
  | Call test_youtube_access_m | ExtractInfo _ => true
  | _ => false
  end.

Definition is_warning (e : event) : bool :=
  match e with Log WARNING _ _ => true | _ => false end.

Definition is_sleep (e : event) : bool :=
  match e with Sleep _ => true | _ => false end.

Definition is_remove (e : event) : bool :=
  match e with Remove _ => true | _ => false end.

Definition count (p : event -> bool) (tr : list event) : nat :=
  length (List.filter p tr).

(** The URLs handed to [extract_info], in order. *)
Definition attempts (tr : list event) : list string :=
  omap (fun e => match e with ExtractInfo u => Some u | _ => None end) tr.

(** What the download loop schedules: calls of [download_video] (left) and
    sleeps (right), in order. *)
Definition schedule (tr : list event) : list (string + nat) :=
  omap (fun e =>
          match e with
          | Call (download_video_m u) => Some (inl u)
          | Sleep k => Some (inr k)
          | _ => None
          end) tr.

(** The videos one after the other, with a sleep of [k] seconds between two
    neighbours and none at the end. *)
Fixpoint interleaved (k : nat) (videos : list string) : list (string + nat) :=
  match videos with
  | [] => []
  | [u] => [inl u]
  | u :: rest => inl u :: inr k :: interleaved k rest
  end.

(** The outcome of probing [url] when the oracle has been called [t] times:
    the metadata arrives, or the attempt fails with an [Exception] (raised
    by the library, or by [None.get]); what remains is an interrupt. *)
Definition probe_succeeds (E : Env) (t : nat) (url : string) : bool :=
  match env_extract_info E t probe_opts url with
  | inr (Some _) => true
  | _ => false
  end.

Definition probe_fails (E : Env) (t : nat) (url : string) : bool :=
  match env_extract_info E t probe_opts url with
  | inl (Exception _) | inr None => true
  | _ => false
  end.

(** ** Sample worlds *)

Module Sample.

Definition workspace : string := "/tmp/tmpk3x9q2ab".
Definition self : YouTubeDownloader := {| download_dir := workspace |}.
Definition video : file := ("Me at the zoo.mp4", 791367%N).
Definition part : file := (".Me at the zoo.mp4.part", 1024%N).
Definition url : string := "https://www.youtube.com/watch?v=jNQXAC9IVRw".

Definition meta : info :=
  {| title := Some "Me at the zoo"; duration := Some 19%N;
     uploader := Some "jawed"; view_count := None |}.

Definition empty : St := {| fs := ∅; clock := 0 |}.
Definition ready : St := {| fs := {[ workspace := [] ]}; clock := 0 |}.
Definition stale : St := {| fs := {[ workspace := [video] ]}; clock := 0 |}.

(** The library writes [files] into the workspace at each download,
    over the files of the same name. *)
Definition writes (files : list file) (f : FS) : FS :=
  alter (fun entries =>
           foldl (fun es x => remove_entry (fst x) es ++ [x]) entries files)
    workspace f.

(** Everything works; each download leaves [files]. *)
Definition world (files : list file) : Env :=
  {| env_now := "2024-05-01 12:00:00.000000";
     env_version := "3.11.9";
     env_mkdtemp := fun _ => inr workspace;
     env_extract_info := fun _ _ _ => inr (Some meta);
     env_download := fun _ _ _ f => (writes files f, None);
     env_remove_fault := fun _ _ => None;
     env_rmtree_fault := fun _ _ => None;
     env_rmtree_unlinked := fun _ _ => false;
     env_sleep_interrupt := fun _ => false |}.

Definition fine : Env := world [video].

(** The temporary directory cannot be created. *)
Definition unwritable : Env :=
  {| env_now := env_now fine;
     env_version := env_version fine;
     env_mkdtemp := fun _ => inl "PermissionError: [Errno 13] Permission denied";
     env_extract_info := env_extract_info fine;
     env_download := env_download fine;
     env_remove_fault := env_remove_fault fine;
     env_rmtree_fault := env_rmtree_fault fine;
     env_rmtree_unlinked := env_rmtree_unlinked fine;
     env_sleep_interrupt := env_sleep_interrupt fine |}.

(** YouTube cannot be reached. *)
Definition blocked : Env :=
  {| env_now := env_now fine;
     env_version := env_version fine;
     env_mkdtemp := env_mkdtemp fine;
     env_extract_info := fun _ _ _ => inl (Exception "HTTP Error 403: Forbidden");
     env_download := env_download fine;
     env_remove_fault := env_remove_fault fine;
     env_rmtree_fault := env_rmtree_fault fine;
     env_rmtree_unlinked := env_rmtree_unlinked fine;
     env_sleep_interrupt := env_sleep_interrupt fine |}.

(** [os.remove] is refused. *)
Definition undeletable : Env :=
  {| env_now := env_now fine;
     env_version := env_version fine;
     env_mkdtemp := env_mkdtemp fine;
     env_extract_info := env_extract_info fine;
     env_download := env_download fine;
     env_remove_fault := fun _ _ => Some "PermissionError: [Errno 1] Operation not permitted";
     env_rmtree_fault := env_rmtree_fault fine;
     env_rmtree_unlinked := env_rmtree_unlinked fine;
     env_sleep_interrupt := env_sleep_interrupt fine |}.

(** The first call of the library fails, the later ones work. *)
Definition flaky : Env :=
  {| env_now := env_now fine;
     env_version := env_version fine;
     env_mkdtemp := env_mkdtemp fine;
     env_extract_info := fun t _ _ =>
       match t with
       | 0 => inl (Exception "ERROR: Sign in to confirm you are not a bot")
       | _ => inr (Some meta)
       end;
     env_download := env_download fine;
     env_remove_fault := env_remove_fault fine;
     env_rmtree_fault := env_rmtree_fault fine;
     env_rmtree_unlinked := env_rmtree_unlinked fine;
     env_sleep_interrupt := env_sleep_interrupt fine |}.

(** The library reports success and writes nothing. *)
Definition idle : Env := world [].

(** The library leaves a hidden file next to the video. *)
Definition littering : Env := world [part; video].

End Sample.

(** ** Alphabets: which events a piece of the script can emit *)

(** Every event of every run of [m] satisfies [P]. *)
Definition emits_only {A} (P : event -> bool) (m : M A) : Prop :=
  forall s, forallb P (evs (m s)) = true.

(** The events of [test_youtube_access]. *)
Definition in_probe (e : event) : bool :=
  match e with
  | Call test_youtube_access_m | ExtractInfo _
  | Log INFO _ _ | Log ERROR _ _ => true
  | _ => false
  end.

(** The events of the [try] block of [main]: everything but the creation
    and the removal of the workspace, and warnings. *)
Definition in_try (e : event) : bool :=
  match e with
  | Call cleanup_m | Mkdtemp | Exists _ | Rmtree _ | Log WARNING _ _ => false
  | _ => true
  end.

(** The events of one iteration of the download loop, the call of
    [download_video] itself apart. *)
Definition in_iteration (e : event) : bool :=
  match e with
  | Log INFO _ _ | Log ERROR _ _ | ExtractInfo _ | YdlDownload _
  | Listdir _ | Getsize _ | Remove _ => true
  | _ => false
  end.

(** The events of [cleanup]. *)
Definition in_cleanup (e : event) : bool :=
  match e with
  | Call cleanup_m | Exists _ | Rmtree _ | Log INFO _ _ | Log WARNING _ _ => true
  | _ => false
  end.

(** ** The start of the script: lines 11 to 24 and 187 to 188 *)

Module Install.

(** The exceptions of this part, as far as [except ImportError] tells them
    apart. *)
Inductive error : Type :=
| ImportError (msg : string)
| CalledProcessError (returncode : Z) (cmd : list string).

Inductive step : Type :=
| Import (name : string)
| Print (text : string)
| CheckCall (cmd : list string).

(** The host: the path of the interpreter, whether the search for a module
    that is not loaded yet finds it ([None]) or fails with a message (the
    [nat] counts the searches made before), and the exit status of a
    command. *)
Record Host : Type := {
  sys_executable : string;
  host_find : nat -> string -> option string;
  host_run : list string -> Z
}.

(** [sys.modules], and the number of searches made. *)
Record Loaded : Type := { modules : gset string; searches : nat }.

Definition Run (A : Type) : Type := Loaded -> (error + A) * Loaded * list step.

Definition seq {A B} (m : Run A) (k : A -> Run B) : Run B :=
  fun l =>
    match m l with
    | (inl e, l', tr) => (inl e, l', tr)
    | (inr a, l', tr) => let '(r, l'', tr') := k a l' in (r, l'', tr ++ tr')
    end.

(** [try: m  except ImportError: h] *)
Definition except_ImportError {A} (m : Run A) (h : Run A) : Run A :=
  fun l =>
    match m l with
    | (inl (ImportError _), l', tr) =>
        let '(r, l'', tr') := h l' in (r, l'', tr ++ tr')
    | o => o
    end.

(** [import name]: a module that is loaded is not searched again. *)
Definition import (H : Host) (name : string) : Run unit :=
  fun l =>
    if bool_decide (name ∈ modules l) then (inr tt, l, [Import name])
    else
      match host_find H (searches l) name with
      | None =>
          (inr tt,
           {| modules := {[ name ]} ∪ modules l; searches := S (searches l) |},
           [Import name])
      | Some msg =>
          (inl (ImportError msg),
           {| modules := modules l; searches := S (searches l) |},
           [Import name])
      end.

Definition print (text : string) : Run unit :=
  fun l => (inr tt, l, [Print text]).

(** [subprocess.check_call(cmd)] *)
Definition check_call (H : Host) (cmd : list string) : Run unit :=
  fun l =>
    let returncode := host_run H cmd in
    (if (returncode =? 0)%Z then inr tt
     else inl (CalledProcessError returncode cmd),
     l, [CheckCall cmd]).

Definition pip_install (H : Host) : list string :=
  [sys_executable H; "-m"; "pip"; "install"; "yt-dlp"; "--quiet"].

(** [install_ytdlp] *)
Definition install_ytdlp (H : Host) : Run unit :=
  except_ImportError
    (seq (import H "yt_dlp") (fun _ =>
     print "✅ yt-dlp already installed"))
    (seq (print "📦 Installing yt-dlp...") (fun _ =>
     seq (check_call H (pip_install H)) (fun _ =>
     seq (import H "yt_dlp") (fun _ =>
     print "✅ yt-dlp installed successfully")))).

(** Lines 22 to 24: [install_ytdlp()], then [import yt_dlp] *)
Definition prelude (H : Host) : Run unit :=
  seq (install_ytdlp H) (fun _ => import H "yt_dlp").

(** How the process goes: an exception of the prelude ends it before
    [main] is called. *)
Inductive outcome : Type :=
| Aborted (e : error) (tr : list step)
| Started (tr : list step) (o : Out unit).

(** [python main.py] *)
Definition script (H : Host) (E : Env) (l : Loaded) (s : St) : outcome :=
  match prelude H l with
  | (inl e, _, tr) => Aborted e tr
  | (inr _, _, tr) => Started tr (main E s)
  end.

Definition script_exit_status (o : outcome) : Z :=
  match o with
  | Aborted _ _ => 1
  | Started _ o => exit_status o
  end.

(** The number of commands run. *)
Definition commands (tr : list step) : nat :=
  length (List.filter (fun x => match x with CheckCall _ => true | _ => false end)
            tr).

(** [name] can be imported without installing anything. *)
Definition available (H : Host) (l : Loaded) (name : string) : bool :=
  bool_decide (name ∈ modules l)
  || match host_find H (searches l) name with None => true | Some _ => false end.

End Install.

(** ** Further observations on traces *)

Definition is_ydl_download (e : event) : bool :=
  match e with YdlDownload _ => true | _ => false end.

(** A call that reads or changes the filesystem. *)
Definition is_fs_call (e : event) : bool :=
  match e with
  | Mkdtemp | Listdir _ | Getsize _ | Remove _ | Exists _ | Rmtree _ => true
  | _ => false
  end.

(** The events of the [try] of [download_video]. *)
Definition in_download (e : event) : bool :=
  match e with
  | Log INFO _ _ | Log ERROR _ _ | ExtractInfo _ | YdlDownload _
  | Listdir _ | Getsize _ => true
  | _ => false
  end.

(** The events of [download_video] before the library is asked to
    download. *)
Definition in_metadata (e : event) : bool :=
  match e with
  | Call (download_video_m _) | Log INFO _ _ | Log ERROR _ _
  | ExtractInfo _ => true
  | _ => false
  end.

(** No run of [m] ends with an [Exception]. *)
Definition interrupt_only {A} (m : M A) : Prop :=
  forall s msg, res (m s) <> inl (Exception msg).

(** The message of a failed [extract_info] as [download_video] and
    [test_youtube_access] see it: the library raised an [Exception], or it
    returned [None], on which [info.get] raises. *)
Definition extraction_failure (r : exn + option info) : option string :=
  match r with
  | inl (Exception msg) => Some msg
  | inr None => Some "'NoneType' object has no attribute 'get'"
  | _ => None
  end.

Definition is_interrupt (r : exn + option info) : bool :=
  match r with inl KeyboardInterrupt => true | _ => false end.

(** ** More sample worlds *)

Module More.

(** [shutil.rmtree] empties the directory and then fails to remove it. *)
Definition sticky : Env :=
  {| env_now := env_now Sample.fine;
     env_version := env_version Sample.fine;
     env_mkdtemp := env_mkdtemp Sample.fine;
     env_extract_info := env_extract_info Sample.fine;
     env_download := env_download Sample.fine;
     env_remove_fault := env_remove_fault Sample.fine;
     env_rmtree_fault := fun _ _ => Some "OSError: [Errno 16] Device or resource busy";
     env_rmtree_unlinked := fun _ _ => true;
     env_sleep_interrupt := env_sleep_interrupt Sample.fine |}.

(** The user interrupts every sleep. *)
Definition impatient : Env :=
  {| env_now := env_now Sample.fine;
     env_version := env_version Sample.fine;
     env_mkdtemp := env_mkdtemp Sample.fine;
     env_extract_info := env_extract_info Sample.fine;
     env_download := env_download Sample.fine;
     env_remove_fault := env_remove_fault Sample.fine;
     env_rmtree_fault := env_rmtree_fault Sample.fine;
     env_rmtree_unlinked := env_rmtree_unlinked Sample.fine;
     env_sleep_interrupt := fun _ => true |}.

(** The library swallows its errors and answers [None]. *)
Definition mute : Env :=
  {| env_now := env_now Sample.fine;
     env_version := env_version Sample.fine;
     env_mkdtemp := env_mkdtemp Sample.fine;
     env_extract_info := fun _ _ _ => inr None;
     env_download := env_download Sample.fine;
     env_remove_fault := env_remove_fault Sample.fine;
     env_rmtree_fault := env_rmtree_fault Sample.fine;
     env_rmtree_unlinked := env_rmtree_unlinked Sample.fine;
     env_sleep_interrupt := env_sleep_interrupt Sample.fine |}.

(** The library finds the video and fails to download it. *)
Definition crashing : Env :=
  {| env_now := env_now Sample.fine;
     env_version := env_version Sample.fine;
     env_mkdtemp := env_mkdtemp Sample.fine;
     env_extract_info := env_extract_info Sample.fine;
     env_download := fun _ _ _ f =>
       (f, Some (Exception "ERROR: unable to download video data"));
     env_remove_fault := env_remove_fault Sample.fine;
     env_rmtree_fault := env_rmtree_fault Sample.fine;
     env_rmtree_unlinked := env_rmtree_unlinked Sample.fine;
     env_sleep_interrupt := env_sleep_interrupt Sample.fine |}.

(** A workspace next to another directory. *)
Definition shared : St :=
  {| fs := {[ Sample.workspace := [Sample.video];
              "/home/app" := [("main.py", 6144%N)] ]};
     clock := 0 |}.

Definition fresh : Install.Loaded :=
  {| Install.modules := ∅; Install.searches := 0 |}.

(** The library is installed already. *)
Definition provisioned : Install.Host :=
  {| Install.sys_executable := "/usr/local/bin/python3";
     Install.host_find := fun _ _ => None;
     Install.host_run := fun _ => 0%Z |}.

(** The library is missing, and pip installs it. *)
Definition bare : Install.Host :=
  {| Install.sys_executable := "/usr/local/bin/python3";
     Install.host_find := fun n _ =>
       match n with
       | 0 => Some "No module named 'yt_dlp'"
       | _ => None
       end;
     Install.host_run := fun _ => 0%Z |}.

(** The library is missing, and pip cannot reach the network. *)
Definition offline : Install.Host :=
  {| Install.sys_executable := "/usr/local/bin/python3";
     Install.host_find := fun _ _ => Some "No module named 'yt_dlp'";
     Install.host_run := fun _ => 1%Z |}.

End More.

(** * Proofs *)

Ltac unfold_monad :=
  unfold mbind, M_bind, mret, M_ret, bind, ret, raise, emit, log, get_fs,
    put_fs, tick, try_except, try_finally, after in *.

(** ** Paths *)

Module PathFacts.
Import Path.
Local Open Scope string_scope.

Lemma rsplit_no_sep f : has_sep f = false -> rsplit_sep f = ("", f).
Proof.
  induction f as [|c r IH]; simpl; [reflexivity|].
  intros [Hc Hr]%orb_false_iff. rewrite (IH Hr), Hc. reflexivity.
Qed.

Lemma rsplit_append d f :
  has_sep f = false -> rsplit_sep (d ++ "/" ++ f) = (d ++ "/", f).
Proof.
  intros Hf. induction d as [|c r IH].
  - change ("" ++ "/" ++ f) with (String "/" f).
    cbn [rsplit_sep]. rewrite (rsplit_no_sep f Hf). reflexivity.
  - change (String c r ++ "/" ++ f) with (String c (r ++ "/" ++ f)).
    cbn [rsplit_sep]. rewrite IH. destruct r; reflexivity.
Qed.

Lemma rstrip_append d : wf_dir d = true -> rstrip_sep (d ++ "/") = d.
Proof.
  unfold wf_dir. induction d as [|c r IH]; [discriminate|].
  destruct r as [|c' r'].
  - simpl. intros H. destruct (is_sep c); [discriminate|reflexivity].
  - intros H.
    change (String c (String c' r') ++ "/")
      with (String c (String c' r' ++ "/")).
    cbn [rstrip_sep]. rewrite IH; [reflexivity|exact H].
Qed.

Lemma all_sep_append d : wf_dir d = true -> all_sep (d ++ "/") = false.
Proof.
  unfold wf_dir. induction d as [|c r IH]; [discriminate|].
  destruct r as [|c' r'].
  - simpl. intros H. destruct (is_sep c); [discriminate|reflexivity].
  - intros H.
    change (String c (String c' r') ++ "/")
      with (String c (String c' r' ++ "/")).
    cbn [all_sep]. rewrite IH; [apply andb_false_r|exact H].
Qed.

Lemma name_no_sep f : wf_name f = true -> has_sep f = false.
Proof.
  unfold wf_name. intros [_ H]%andb_true_iff. by apply negb_true_iff in H.
Qed.

Lemma prefix_sep_name f : wf_name f = true -> String.prefix "/" f = false.
Proof.
  unfold wf_name. destruct f as [|c r]; [reflexivity|].
  intros H. cbn [String.prefix].
  destruct (ascii_dec "/" c) as [<-|]; [|reflexivity].
  cbn in H. discriminate.
Qed.

Lemma join_wf d f :
  wf_dir d = true -> wf_name f = true -> join d f = d ++ "/" ++ f.
Proof.
  intros Hd Hf. unfold join. rewrite (prefix_sep_name f Hf).
  unfold wf_dir in Hd. apply andb_true_iff in Hd as [Hd1 Hd2].
  apply negb_true_iff in Hd1, Hd2. rewrite Hd1, Hd2. reflexivity.
Qed.

Lemma split_join d f :
  wf_dir d = true -> wf_name f = true -> split (join d f) = (d, f).
Proof.
  intros Hd Hf. rewrite (join_wf d f Hd Hf). unfold split.
  rewrite (rsplit_append d f (name_no_sep f Hf)).
  rewrite (all_sep_append d Hd), (rstrip_append d Hd).
  destruct d; [discriminate|reflexivity].
Qed.

Lemma dirname_join d f :
  wf_dir d = true -> wf_name f = true -> dirname (join d f) = d.
Proof. intros Hd Hf. unfold dirname. by rewrite split_join. Qed.

Lemma basename_join d f :
  wf_dir d = true -> wf_name f = true -> basename (join d f) = f.
Proof.
  intros Hd Hf. unfold basename. rewrite (join_wf d f Hd Hf).
  by rewrite (rsplit_append d f (name_no_sep f Hf)).
Qed.

Lemma join_nonempty d f :
  wf_dir d = true -> wf_name f = true -> String.eqb (join d f) "" = false.
Proof.
  intros Hd Hf. rewrite (join_wf d f Hd Hf). destruct d; [discriminate|].
  reflexivity.
Qed.

End PathFacts.

(** ** The monad *)

Lemma res_after {A} tr (o : Out A) : res (after tr o) = res o.
Proof. by destruct o. Qed.

Lemma st_after {A} tr (o : Out A) : st (after tr o) = st o.
Proof. by destruct o. Qed.

Lemma evs_after {A} tr (o : Out A) : evs (after tr o) = tr ++ evs o.
Proof. by destruct o. Qed.

Lemma after_nil {A} (o : Out A) : after [] o = o.
Proof. by destruct o. Qed.

Lemma run_bind {A B} (m : M A) (f : A -> M B) s :
  (m ≫= f) s =
  match res (m s) with
  | inl e => mkOut (inl e) (st (m s)) (evs (m s))
  | inr a => after (evs (m s)) (f a (st (m s)))
  end.
Proof. unfold_monad. by destruct (m s) as [[e|a] s' tr]. Qed.

Lemma run_bind_inr {A B} (m : M A) (f : A -> M B) s a :
  res (m s) = inr a -> (m ≫= f) s = after (evs (m s)) (f a (st (m s))).
Proof. intros H. by rewrite run_bind, H. Qed.

Lemma run_bind_inl {A B} (m : M A) (f : A -> M B) s e :
  res (m s) = inl e -> (m ≫= f) s = mkOut (inl e) (st (m s)) (evs (m s)).
Proof. intros H. by rewrite run_bind, H. Qed.

Lemma run_emit {A} e (f : unit -> M A) s :
  (emit e ≫= f) s = after [e] (f tt s).
Proof. reflexivity. Qed.

Lemma run_log {A} lvl fmt args (f : unit -> M A) s :
  (log lvl fmt args ≫= f) s = after [Log lvl fmt args] (f tt s).
Proof. reflexivity. Qed.

(** ** Alphabets *)

Lemma forallb_weaken (p q : event -> bool) tr :
  (forall e, p e = true -> q e = true) ->
  forallb p tr = true -> forallb q tr = true.
Proof. intros Hpq. rewrite !forallb_forall. auto. Qed.

Lemma emits_only_weaken {A} (P Q : event -> bool) (m : M A) :
  (forall e, P e = true -> Q e = true) -> emits_only P m -> emits_only Q m.
Proof.
  intros HPQ Hm s. specialize (Hm s).
  rewrite forallb_forall in *. auto.
Qed.

Lemma emits_only_ret {A} P (a : A) : emits_only P (mret a).
Proof. intros s. reflexivity. Qed.

Lemma emits_only_raise {A} P e : emits_only P (raise e : M A).
Proof. intros s. reflexivity. Qed.

Lemma emits_only_get_fs P : emits_only P get_fs.
Proof. intros s. reflexivity. Qed.

Lemma emits_only_put_fs P f : emits_only P (put_fs f).
Proof. intros s. reflexivity. Qed.

Lemma emits_only_tick P : emits_only P tick.
Proof. intros s. reflexivity. Qed.

Lemma emits_only_emit P e : P e = true -> emits_only P (emit e).
Proof. intros H s. cbn. by rewrite H. Qed.

Lemma emits_only_log P lvl fmt args :
  P (Log lvl fmt args) = true -> emits_only P (log lvl fmt args).
Proof. apply emits_only_emit. Qed.

Lemma emits_only_bind {A B} P (m : M A) (f : A -> M B) :
  emits_only P m -> (forall a, emits_only P (f a)) -> emits_only P (m ≫= f).
Proof.
  intros Hm Hf s. rewrite run_bind. specialize (Hm s).
  destruct (res (m s)) as [e|a]; [exact Hm|].
  rewrite evs_after, forallb_app, Hm. apply Hf.
Qed.

Lemma emits_only_try_except {A} P (m : M A) handlers :
  emits_only P m ->
  Forall (fun h : handler A => forall e, emits_only P (snd h e)) handlers ->
  emits_only P (try_except m handlers).
Proof.
  intros Hm Hh s. unfold try_except. specialize (Hm s).
  destruct (m s) as [[e|a] s' tr]; [|exact Hm].
  destruct (List.find (fun h => fst h e) handlers) as [h|] eqn:Hfind;
    [|exact Hm].
  apply find_some in Hfind as [Hin _].
  rewrite evs_after, forallb_app. cbn in Hm. rewrite Hm.
  rewrite Forall_forall in Hh. apply Hh. by apply list_elem_of_In.
Qed.

Lemma emits_only_try_finally {A} P (m : M A) fin :
  emits_only P m -> emits_only P fin -> emits_only P (try_finally m fin).
Proof.
  intros Hm Hf s. unfold try_finally. specialize (Hm s).
  destruct (m s) as [r s' tr]. specialize (Hf s').
  destruct (fin s') as [r' s'' tr']. cbn in *.
  by rewrite forallb_app, Hm, Hf.
Qed.

Ltac alphabet :=
  repeat first
    [ progress intros
    | assumption
    | match goal with
      | H : forall _, emits_only _ _ |- emits_only _ _ => apply H
      end
    | apply emits_only_ret
    | apply emits_only_raise
    | apply emits_only_get_fs
    | apply emits_only_put_fs
    | apply emits_only_tick
    | apply emits_only_emit; reflexivity
    | apply emits_only_log; reflexivity
    | apply emits_only_bind
    | apply emits_only_try_finally
    | apply emits_only_try_except;
      [| repeat first
           [ apply List.Forall_nil
           | apply List.Forall_cons; [intros ?; cbn [snd]|] ] ]
    | match goal with
      | |- emits_only _ (match ?x with _ => _ end) => destruct x
      | |- emits_only _ (let (_, _) := ?x in _) => destruct x
      end ].

Section Alphabets.

Variable E : Env.

Lemma test_one_alphabet i url : emits_only in_probe (test_one E i url).
Proof. unfold test_one, ydl_extract_info, info_get. alphabet. Qed.

Lemma test_loop_alphabet urls : forall i, emits_only in_probe (test_loop E i urls).
Proof.
  induction urls as [|url rest IH]; intros i; cbn [test_loop].
  - alphabet.
  - apply emits_only_bind; [apply test_one_alphabet|].
    intros [|]; [alphabet|apply IH].
Qed.

Lemma test_youtube_access_alphabet urls self :
  emits_only in_probe (test_youtube_access_on E urls self).
Proof.
  unfold test_youtube_access_on.
  apply emits_only_bind; [alphabet|]. intros _.
  apply emits_only_bind; [apply test_loop_alphabet|]. alphabet.
Qed.

Lemma find_downloaded_alphabet self names :
  emits_only in_iteration (find_downloaded self names).
Proof.
  induction names as [|filename rest IH]; cbn [find_downloaded].
  - alphabet.
  - destruct (negb (hidden filename)); [|exact IH].
    unfold os_path_getsize. alphabet.
Qed.

(** [download_video] announces itself, and then only asks the library
    and the filesystem, and logs. *)
Lemma download_video_events self url mq s :
  exists tr,
    evs (download_video E self url mq s) = Call (download_video_m url) :: tr
    /\ forallb in_iteration tr = true.
Proof.
  unfold download_video. rewrite run_emit, evs_after.
  eexists. split; [reflexivity|].
  match goal with
  | |- forallb ?P (evs (?m s)) = true => revert s; change (emits_only P m)
  end.
  pose proof (find_downloaded_alphabet self).
  unfold ydl_extract_info, ydl_download, os_listdir, info_get. alphabet.
Qed.

Lemma in_iteration_in_try e : in_iteration e = true -> in_try e = true.
Proof. by destruct e as [[]| [] | | | | | | | | |]. Qed.

Lemma download_video_alphabet self url mq :
  emits_only in_try (download_video E self url mq).
Proof.
  intros s. destruct (download_video_events self url mq s) as (tr & -> & H).
  cbn. by apply (forallb_weaken in_iteration), H; apply in_iteration_in_try.
Qed.

Lemma download_and_delete_alphabet self i url :
  emits_only in_try (download_and_delete E self i url).
Proof.
  pose proof (download_video_alphabet self url true).
  unfold download_and_delete, os_remove. alphabet.
Qed.

Lemma wait_between_alphabet i n : emits_only in_try (wait_between E i n).
Proof. unfold wait_between, time_sleep. alphabet. Qed.

Lemma download_loop_alphabet self n videos :
  forall i, emits_only in_try (download_loop E self n i videos).
Proof.
  induction videos as [|v rest IH]; intros i; cbn [download_loop].
  - alphabet.
  - apply emits_only_bind; [apply download_and_delete_alphabet|]. intros _.
    apply emits_only_bind; [apply wait_between_alphabet|]. intros _.
    apply IH.
Qed.

Lemma main_try_alphabet self : emits_only in_try (main_try E self).
Proof.
  unfold main_try, test_youtube_access.
  apply emits_only_bind; [alphabet|]. intros _.
  apply emits_only_bind.
  - eapply emits_only_weaken; [|apply test_youtube_access_alphabet].
    by intros [[]| [] | | | | | | | | |].
  - intros ok. destruct (negb ok); [alphabet|].
    apply emits_only_bind; [alphabet|]. intros _.
    apply emits_only_bind; [apply download_loop_alphabet|]. alphabet.
Qed.

Lemma cleanup_alphabet self : emits_only in_cleanup (cleanup E self).
Proof. unfold cleanup, os_path_exists, shutil_rmtree. alphabet. Qed.

End Alphabets.

(** ** Counting events *)

Lemma count_app p tr1 tr2 : count p (tr1 ++ tr2) = count p tr1 + count p tr2.
Proof. unfold count. by rewrite List.filter_app, length_app. Qed.

Lemma count_none p q tr :
  (forall e, q e = true -> p e = false) ->
  forallb q tr = true -> count p tr = 0.
Proof.
  intros Hqp Hq. unfold count. induction tr as [|e tr IH]; [reflexivity|].
  cbn in *. apply andb_true_iff in Hq as [He Htr].
  rewrite (Hqp e He). auto.
Qed.

(** ** [__init__] and [cleanup] *)

Section Lifecycle.

Variable E : Env.

Lemma tempfile_mkdtemp_evs s : evs (tempfile_mkdtemp E s) = [Mkdtemp].
Proof.
  unfold tempfile_mkdtemp. unfold_monad. cbn.
  destruct (env_mkdtemp E (fs s)) as [msg|d]; [reflexivity|].
  by destruct (fs s !! d).
Qed.

Lemma init_raises s e :
  res (tempfile_mkdtemp E s) = inl e ->
  res (init E s) = inl e /\ evs (init E s) = [Mkdtemp].
Proof.
  intros H. unfold init. rewrite (run_bind_inl _ _ _ _ H). cbn.
  by rewrite tempfile_mkdtemp_evs.
Qed.

Lemma init_returns s d :
  res (init E s) = inr d ->
  evs (init E s) =
    [Mkdtemp; Log INFO "🗂️ Download directory: {self.download_dir}"
                [AStr (download_dir d)]]
  /\ fs (st (init E s)) !! download_dir d = Some [].
Proof.
  unfold init, tempfile_mkdtemp. unfold_monad. cbn.
  destruct (env_mkdtemp E (fs s)) as [msg|dir]; [discriminate|].
  destruct (fs s !! dir); [discriminate|]. cbn.
  intros [= <-]. cbn. split; [reflexivity|]. apply lookup_insert_eq.
Qed.

Lemma below_refl dir : below dir dir = true.
Proof. unfold below. by rewrite String.eqb_refl. Qed.

Lemma remove_tree_below dir dir' (f : FS) :
  below dir dir' = true -> remove_tree dir f !! dir' = None.
Proof.
  intros Hin. unfold remove_tree. apply map_lookup_filter_None. right.
  intros entries _. cbn. by rewrite Hin.
Qed.

Lemma remove_tree_gone dir (f : FS) : remove_tree dir f !! dir = None.
Proof. apply remove_tree_below, below_refl. Qed.



Lemma remove_some_left unlinked dir (f : FS) entries :
  f !! dir = Some entries ->
  remove_some unlinked dir f !! dir
  = Some (List.filter (fun e => negb (unlinked (Path.join dir (fst e))))
            entries).
Proof.
  intros Hdir. unfold remove_some. rewrite map_lookup_imap, Hdir. cbn.
  by rewrite below_refl, String.eqb_refl.
Qed.

(** The four ways [cleanup] can go. *)
Lemma cleanup_cases self s :
  let dir := download_dir self in
  let warn msg := Log WARNING "⚠️ Cleanup failed: {e}" [AStr msg] in
  cleanup E self s =
    match fs s !! dir with
    | Some _ =>
        match env_rmtree_fault E (clock s) dir with
        | Some msg =>
            mkOut (inr tt)
              {| fs := remove_some (env_rmtree_unlinked E (clock s)) dir (fs s);
                 clock := S (clock s) |}
              [Call cleanup_m; Exists dir; Rmtree dir; warn msg]
        | None =>
            mkOut (inr tt)
              {| fs := remove_tree dir (fs s); clock := S (clock s) |}
              [Call cleanup_m; Exists dir; Rmtree dir;
               Log INFO "🗑️ Cleaned up: {self.download_dir}" [AStr dir]]
        end
    | None =>
        match lookup_file dir (fs s) with
        | Some _ =>
            mkOut (inr tt) (ticked s)
              [Call cleanup_m; Exists dir; Rmtree dir;
               warn "NotADirectoryError"]
        | None => mkOut (inr tt) s [Call cleanup_m; Exists dir]
        end
    end.
Proof.
  unfold cleanup, os_path_exists, shutil_rmtree. unfold_monad. cbn.
  destruct (fs s !! download_dir self) eqn:Hd; cbn.
  - rewrite Hd.
    by destruct (env_rmtree_fault E (clock s) (download_dir self)).
  - destruct (lookup_file (download_dir self) (fs s)) eqn:Hfile; cbn;
      [|reflexivity]. by rewrite Hd, Hfile.
Qed.

Lemma cleanup_returns self s : res (cleanup E self s) = inr tt.
Proof.
  rewrite cleanup_cases. cbn.
  destruct (fs s !! download_dir self),
    (lookup_file (download_dir self) (fs s)),
    (env_rmtree_fault E (clock s) (download_dir self)); reflexivity.
Qed.

Lemma cleanup_called_once self s :
  count is_cleanup_call (evs (cleanup E self s)) = 1.
Proof.
  rewrite cleanup_cases. cbn.
  destruct (fs s !! download_dir self),
    (lookup_file (download_dir self) (fs s)),
    (env_rmtree_fault E (clock s) (download_dir self)); reflexivity.
Qed.

Lemma cleanup_absent self s :
  fs s !! download_dir self = None -> fs (st (cleanup E self s)) = fs s.
Proof.
  intros H. rewrite cleanup_cases. cbn. rewrite H.
  by destruct (lookup_file (download_dir self) (fs s)).
Qed.

Lemma cleanup_removes self s :
  env_rmtree_fault E (clock s) (download_dir self) = None ->
  fs (st (cleanup E self s)) !! download_dir self = None.
Proof.
  intros H. rewrite cleanup_cases. cbn. rewrite H.
  destruct (fs s !! download_dir self) eqn:Hd; cbn;
    [apply remove_tree_gone|].
  by destruct (lookup_file (download_dir self) (fs s)).
Qed.


(** The [except] clauses of [main] absorb whatever the [try] raises. *)
Lemma main_guarded_run self s :
  main_guarded E self s =
    let o := main_try E self s in
    mkOut (inr tt) (st o)
      (evs o ++
       match res o with
       | inl KeyboardInterrupt =>
           [Log INFO "⚠️ Download interrupted by user" []]
       | inl (Exception msg) =>
           [Log ERROR "💥 Unexpected error: {str(e)}" [AStr msg]]
       | inr _ => []
       end).
Proof.
  unfold main_guarded, try_except.
  destruct (main_try E self s) as [[[msg|]|[]] s' tr]; cbn;
    by rewrite ?app_nil_r.
Qed.

Lemma main_guarded_alphabet self : emits_only in_try (main_guarded E self).
Proof.
  intros s. rewrite main_guarded_run. cbn.
  rewrite forallb_app, (main_try_alphabet E self s).
  by destruct (res (main_try E self s)) as [[]|].
Qed.

(** A run of [main] once the workspace exists: the [try], then
    [cleanup], whatever happened. *)
Lemma main_run s d :
  res (init E s) = inr d ->
  let o1 := main_guarded E d (st (init E s)) in
  let o2 := cleanup E d (st o1) in
  main E s =
    mkOut (inr tt) (st o2)
      ([Log INFO "🚀 YouTube Downloader for Railway - Starting..." [];
        Log INFO "🕐 Current time: {datetime.now()}" [AStr (env_now E)];
        Log INFO "🐍 Python version: {sys.version}" [AStr (env_version E)]]
       ++ evs (init E s) ++ evs o1 ++ evs o2
       ++ [Log INFO "👋 YouTube Downloader finished!" []]).
Proof.
  intros Hinit. unfold main. rewrite !run_log.
  rewrite (run_bind_inr _ _ _ _ Hinit).
  unfold try_finally. rewrite main_guarded_run. cbn.
  rewrite run_bind, cleanup_returns. cbn.
  destruct (cleanup E d (st (main_try E d (st (init E s))))) as [r s' tr].
  cbn. by rewrite <- !app_assoc.
Qed.

(** A run of [main] when the workspace cannot be created. *)
Lemma main_aborts s e :
  res (tempfile_mkdtemp E s) = inl e ->
  res (main E s) = inl e /\
  evs (main E s) =
    [Log INFO "🚀 YouTube Downloader for Railway - Starting..." [];
     Log INFO "🕐 Current time: {datetime.now()}" [AStr (env_now E)];
     Log INFO "🐍 Python version: {sys.version}" [AStr (env_version E)];
     Mkdtemp].
Proof.
  intros H. apply init_raises in H as [Hres Hevs].
  unfold main. rewrite !run_log.
  rewrite (run_bind_inl _ _ _ _ Hres). cbn. by rewrite Hevs.
Qed.

(** The [try] of [main] when the probe answers [False]: five error
    lines, and the early [return]. *)
Lemma main_try_no_access self s :
  res (test_youtube_access E self s) = inr false ->
  main_try E self s =
    mkOut (inr tt) (st (test_youtube_access E self s))
      ([Log INFO "🧪 Testing YouTube access from Railway..." []]
       ++ evs (test_youtube_access E self s)
       ++ [Log ERROR "❌ Cannot access YouTube from this Railway instance!" [];
           Log ERROR "💡 Possible issues:" [];
           Log ERROR "   • IP blocked by YouTube" [];
           Log ERROR "   • Geographical restrictions" [];
           Log ERROR "   • Network configuration issues" []]).
Proof.
  intros H. unfold main_try. rewrite run_log, (run_bind_inr _ _ _ _ H).
  cbn [negb]. rewrite !run_log. reflexivity.
Qed.

End Lifecycle.

(** ** The probe *)

Lemma attempts_app tr1 tr2 : attempts (tr1 ++ tr2) = attempts tr1 ++ attempts tr2.
Proof. apply omap_app. Qed.

Section Probe.

Variable E : Env.

(** One probe: it asks the library once, and ends in one of three ways. *)
Lemma test_one_run i url s :
  res (test_one E i url s) =
    (if probe_succeeds E (clock s) url then inr true
     else if probe_fails E (clock s) url then inr false
     else inl KeyboardInterrupt)
  /\ st (test_one E i url s) = ticked s
  /\ attempts (evs (test_one E i url s)) = [url].
Proof.
  unfold test_one, ydl_extract_info, info_get, probe_succeeds, probe_fails.
  unfold_monad. cbn.
  by destruct (env_extract_info E (clock s) probe_opts url)
    as [[msg|]|[inf|]].
Qed.

(** The loop, one URL at a time. *)
Lemma test_loop_cons i url rest s :
  let o := test_loop E i (url :: rest) s in
  let o' := test_loop E (S i) rest (ticked s) in
  if probe_succeeds E (clock s) url then
    res o = inr true /\ attempts (evs o) = [url]
  else if probe_fails E (clock s) url then
    res o = res o' /\ attempts (evs o) = url :: attempts (evs o')
  else
    res o = inl KeyboardInterrupt /\ attempts (evs o) = [url].
Proof.
  cbn [test_loop]. rewrite run_bind.
  destruct (test_one_run i url s) as (Hres & Hst & Hatt).
  rewrite Hres, Hst.
  destruct (probe_succeeds E (clock s) url).
  - cbn. rewrite app_nil_r. by split.
  - destruct (probe_fails E (clock s) url).
    + rewrite res_after, evs_after, attempts_app, Hatt. by split.
    + by split.
Qed.

Lemma test_loop_nil i s : test_loop E i [] s = mkOut (inr false) s [].
Proof. reflexivity. Qed.

Lemma probe_exclusive t url :
  probe_succeeds E t url = true -> probe_fails E t url = false.
Proof.
  unfold probe_succeeds, probe_fails.
  by destruct (env_extract_info E t probe_opts url) as [[msg|]|[inf|]].
Qed.

(** Once a URL succeeds after failures only, the loop returns [True]
    and has attempted the URLs up to that one. *)
Lemma test_loop_first_success urls : forall i s k url,
  urls !! k = Some url ->
  probe_succeeds E (clock s + k) url = true ->
  (forall j u, j < k -> urls !! j = Some u ->
               probe_fails E (clock s + j) u = true) ->
  res (test_loop E i urls s) = inr true
  /\ attempts (evs (test_loop E i urls s)) = take (S k) urls.
Proof.
  induction urls as [|u0 rest IH]; intros i s k url Hk Hok Hfail;
    [discriminate|].
  pose proof (test_loop_cons i u0 rest s) as Hstep. cbv zeta in Hstep.
  destruct k as [|k].
  - injection Hk as ->. rewrite Nat.add_0_r in Hok. rewrite Hok in Hstep.
    destruct Hstep as [-> ->]. by split.
  - assert (H0 : probe_fails E (clock s) u0 = true).
    { rewrite <- (Nat.add_0_r (clock s)). apply (Hfail 0); [lia|done]. }
    destruct (probe_succeeds E (clock s) u0) eqn:Hs0.
    { apply probe_exclusive in Hs0. congruence. }
    rewrite H0 in Hstep. destruct Hstep as [-> ->].
    destruct (IH (S i) (ticked s) k url) as [Hres Hatt].
    + exact Hk.
    + cbn [ticked clock]. by rewrite Nat.add_succ_comm.
    + intros j u Hj Hu. cbn [ticked clock]. rewrite Nat.add_succ_comm.
      apply Hfail; [lia|done].
    + rewrite Hres, Hatt. by split.
Qed.

(** While the URLs fail, the loop goes on to the next one. *)
Lemma test_loop_advances urls : forall i s k url,
  urls !! k = Some url ->
  (forall j u, j < k -> urls !! j = Some u ->
               probe_fails E (clock s + j) u = true) ->
  attempts (evs (test_loop E i urls s)) !! k = Some url.
Proof.
  induction urls as [|u0 rest IH]; intros i s k url Hk Hfail;
    [discriminate|].
  pose proof (test_loop_cons i u0 rest s) as Hstep. cbv zeta in Hstep.
  destruct k as [|k].
  - injection Hk as ->.
    destruct (probe_succeeds E (clock s) url);
      [|destruct (probe_fails E (clock s) url)];
      destruct Hstep as [_ ->]; reflexivity.
  - assert (H0 : probe_fails E (clock s) u0 = true).
    { rewrite <- (Nat.add_0_r (clock s)). apply (Hfail 0); [lia|done]. }
    destruct (probe_succeeds E (clock s) u0) eqn:Hs0.
    { apply probe_exclusive in Hs0. congruence. }
    rewrite H0 in Hstep. destruct Hstep as [_ ->]. cbn.
    apply IH; [exact Hk|].
    intros j u Hj Hu. cbn [ticked clock]. rewrite Nat.add_succ_comm.
    apply Hfail; [lia|done].
Qed.

(** The loop runs to its end exactly when every URL fails. *)
Lemma test_loop_all_fail urls : forall i s,
  res (test_loop E i urls s) = inr false <->
  (forall j u, urls !! j = Some u -> probe_fails E (clock s + j) u = true).
Proof.
  induction urls as [|u0 rest IH]; intros i s.
  - rewrite test_loop_nil. cbn. split; [intros _ j u [=]|done].
  - pose proof (test_loop_cons i u0 rest s) as Hstep. cbv zeta in Hstep.
    destruct (probe_succeeds E (clock s) u0) eqn:Hs0.
    + destruct Hstep as [-> _]. split; [discriminate|].
      intros Hall. apply probe_exclusive in Hs0.
      specialize (Hall 0 u0 eq_refl). rewrite Nat.add_0_r in Hall.
      congruence.
    + destruct (probe_fails E (clock s) u0) eqn:Hf0.
      * destruct Hstep as [-> _]. rewrite IH. cbn [ticked clock]. split.
        -- intros Hall [|j] u Hu.
           ++ injection Hu as <-. by rewrite Nat.add_0_r.
           ++ rewrite <- Nat.add_succ_comm. by apply Hall.
        -- intros Hall j u Hu. rewrite Nat.add_succ_comm.
           by apply (Hall (S j)).
      * destruct Hstep as [-> _]. split; [discriminate|].
        intros Hall. specialize (Hall 0 u0 eq_refl).
        rewrite Nat.add_0_r in Hall. congruence.
Qed.

(** [test_youtube_access] around its loop. *)
Lemma test_youtube_access_run urls self s :
  let o := test_youtube_access_on E urls self s in
  res o = res (test_loop E 1 urls s)
  /\ attempts (evs o) = attempts (evs (test_loop E 1 urls s)).
Proof.
  unfold test_youtube_access_on. rewrite run_emit. cbn zeta.
  rewrite res_after, evs_after, attempts_app, run_bind.
  destruct (test_loop E 1 urls s) as [[e|[|]] s' tr];
    cbn [res evs after mret M_ret ret]; rewrite ?run_log;
    cbn [res evs after mret M_ret ret];
    rewrite ?attempts_app, ?app_nil_r; by split.
Qed.

End Probe.

(** ** One download *)

Section Download.

Variable E : Env.

(** The scan of the listing stops at the first name that is not hidden;
    the state is left as it is. *)
Lemma find_downloaded_run self names s :
  find_downloaded self names s =
    match List.find (fun n => negb (hidden n)) names with
    | None => mkOut (inr None) s []
    | Some filename =>
        let file_path := Path.join (download_dir self) filename in
        match lookup_file file_path (fs s) with
        | Some e =>
            mkOut (inr (Some file_path)) s
              [Getsize file_path;
               Log INFO "✅ Download SUCCESS:" [];
               Log INFO "   • File: {filename}" [AStr filename];
               Log INFO "   • Size: {file_size:.2f} MB" [AMegabytes (snd e)];
               Log INFO "   • Path: {file_path}" [AStr file_path]]
        | None =>
            mkOut (inl (Exception "FileNotFoundError")) s [Getsize file_path]
        end
    end.
Proof.
  induction names as [|filename rest IH]; [reflexivity|].
  cbn [find_downloaded List.find].
  destruct (negb (hidden filename)); [|exact IH].
  unfold os_path_getsize. unfold_monad. cbn.
  by destruct (lookup_file (Path.join (download_dir self) filename) (fs s)).
Qed.

(** [download_video] once both calls into the library have returned:
    what it answers depends on the listing of the workspace alone. *)
Lemma download_video_run self url mq s inf f' :
  env_extract_info E (clock s) (download_opts self mq) url = inr (Some inf) ->
  env_download E (S (clock s)) (download_opts self mq) url (fs s)
    = (f', None) ->
  let o := download_video E self url mq s in
  st o = {| fs := f'; clock := S (S (clock s)) |}
  /\ match f' !! download_dir self with
     | None => res o = inr None
     | Some entries =>
         match List.find (fun n => negb (hidden n)) (List.map fst entries) with
         | None =>
             res o = inr None
             /\ last (evs o) = Some (Log ERROR "❌ Downloaded file not found!" [])
         | Some filename =>
             let file_path := Path.join (download_dir self) filename in
             match lookup_file file_path f' with
             | Some _ => res o = inr (Some file_path)
             | None => res o = inr None
             end
         end
     end.
Proof.
  intros Hinfo Hdown.
  unfold download_video, ydl_extract_info, ydl_download, os_listdir, info_get.
  unfold_monad. cbn. rewrite Hinfo. cbn. rewrite Hdown. cbn.
  destruct (f' !! download_dir self) as [entries|]; cbn; [|done].
  rewrite find_downloaded_run. cbn.
  destruct (List.find _ (List.map fst entries)) as [filename|]; cbn; [|done].
  by destruct (lookup_file (Path.join (download_dir self) filename) f').
Qed.

(** A path answered by [download_video] is the first name of the listing
    that is not hidden, whatever the library did. *)
Lemma download_video_success self url mq s file_path :
  let o := download_video E self url mq s in
  res o = inr (Some file_path) ->
  exists entries filename,
    fs (st o) !! download_dir self = Some entries
    /\ List.find (fun n => negb (hidden n)) (List.map fst entries)
       = Some filename
    /\ file_path = Path.join (download_dir self) filename.
Proof.
  unfold download_video, ydl_extract_info, ydl_download, os_listdir, info_get.
  unfold_monad. cbn.
  destruct (env_extract_info E (clock s) (download_opts self mq) url)
    as [[msg|]|[inf|]]; cbn; try discriminate.
  destruct (env_download E (S (clock s)) (download_opts self mq) url (fs s))
    as [f' [[msg|]|]]; cbn; try discriminate.
  destruct (f' !! download_dir self) as [entries|] eqn:Hdir; cbn;
    [|discriminate].
  rewrite find_downloaded_run. cbn.
  destruct (List.find _ (List.map fst entries)) as [filename|] eqn:Hfind;
    cbn; [|discriminate].
  destruct (lookup_file (Path.join (download_dir self) filename) f'); cbn;
    [|discriminate].
  intros [= <-]. by exists entries, filename.
Qed.

(** [os.remove]: refused by the system, or the file is missing, or the
    entry goes. *)
Lemma os_remove_run path s :
  os_remove E path s =
    match env_remove_fault E (clock s) path with
    | Some msg => mkOut (inl (Exception msg)) (ticked s) [Remove path]
    | None =>
        match fs s !! Path.dirname path, lookup_file path (fs s) with
        | Some entries, Some _ =>
            mkOut (inr tt)
              {| fs := <[Path.dirname path :=
                           remove_entry (Path.basename path) entries]> (fs s);
                 clock := S (clock s) |}
              [Remove path]
        | _, _ =>
            mkOut (inl (Exception "FileNotFoundError")) (ticked s)
              [Remove path]
        end
    end.
Proof.
  unfold os_remove. unfold_monad. cbn.
  destruct (env_remove_fault E (clock s) path); [reflexivity|].
  by destruct (fs s !! Path.dirname path), (lookup_file path (fs s)).
Qed.

Lemma os_remove_evs path s : evs (os_remove E path s) = [Remove path].
Proof.
  rewrite os_remove_run.
  by destruct (env_remove_fault E (clock s) path),
    (fs s !! Path.dirname path), (lookup_file path (fs s)).
Qed.

(** An iteration whose download succeeded: the file is removed, and the
    iteration ends normally whether the removal worked or not. *)
Lemma download_and_delete_success self i url s r :
  let o := download_video E self url true s in
  res o = inr r -> truthy r = true ->
  let path := default "" r in
  let o' := os_remove E path (st o) in
  download_and_delete E self i url s =
    mkOut (inr tt) (st o')
      ([Log INFO "\n📺 DOWNLOADING VIDEO #{i}" [ANat i];
        Log INFO "🔗 URL: {video_url}" [AStr url]]
       ++ evs o
       ++ [Log INFO "✅ Video #{i} downloaded successfully!" [ANat i];
           Remove path]
       ++ match res o' with
          | inr _ =>
              [Log INFO "🗑️ Cleaned up: {os.path.basename(downloaded_file)}"
                 [AStr (Path.basename path)]]
          | inl _ => []
          end).
Proof.
  intros o Hres Htruthy path o'. subst o o' path.
  unfold download_and_delete. rewrite !run_log.
  rewrite (run_bind_inr _ _ _ _ Hres), Htruthy, run_log.
  unfold try_except. rewrite run_bind.
  pose proof (os_remove_evs (default "" r)
                (st (download_video E self url true s))) as Hevs.
  destruct (os_remove E (default "" r) (st (download_video E self url true s)))
    as [[e|[]] s' tr]; cbn in Hevs; subst tr; cbn;
    by rewrite <- ?app_assoc.
Qed.

(** An iteration whose download failed. *)
Lemma download_and_delete_failure self i url s r :
  let o := download_video E self url true s in
  res o = inr r -> truthy r = false ->
  download_and_delete E self i url s =
    mkOut (inr tt) (st o)
      ([Log INFO "\n📺 DOWNLOADING VIDEO #{i}" [ANat i];
        Log INFO "🔗 URL: {video_url}" [AStr url]]
       ++ evs o
       ++ [Log ERROR "❌ Video #{i} download failed!" [ANat i]]).
Proof.
  intros o Hres Htruthy. subst o.
  unfold download_and_delete. rewrite !run_log.
  by rewrite (run_bind_inr _ _ _ _ Hres), Htruthy.
Qed.

(** The wait between two downloads. *)
Lemma wait_between_run i n s :
  wait_between E i n s =
    if (i <? n)%nat then
      mkOut (if env_sleep_interrupt E (clock s)
             then inl KeyboardInterrupt else inr tt)
        (ticked s)
        [Log INFO "⏳ Waiting 10 seconds before next download..." [];
         Sleep 10]
    else mkOut (inr tt) s [].
Proof.
  unfold wait_between, time_sleep. destruct (i <? n)%nat; [|reflexivity].
  unfold_monad. cbn. by destruct (env_sleep_interrupt E (clock s)).
Qed.

End Download.

(** ** The schedule of the download loop *)

Lemma schedule_app tr1 tr2 : schedule (tr1 ++ tr2) = schedule tr1 ++ schedule tr2.
Proof. apply omap_app. Qed.

Lemma schedule_quiet tr : forallb in_iteration tr = true -> schedule tr = [].
Proof.
  induction tr as [|e tr IH]; [reflexivity|]. cbn [forallb].
  intros [He Htr]%andb_true_iff. cbn.
  destruct e as [[]| [] | | | | | | | | |]; try discriminate; by apply IH.
Qed.

Lemma count_warning_quiet tr :
  forallb in_iteration tr = true -> count is_warning tr = 0.
Proof.
  apply count_none. by intros [[]| [] | | | | | | | | |].
Qed.

Lemma interleaved_cons k u v rest :
  interleaved k (u :: v :: rest) = inl u :: inr k :: interleaved k (v :: rest).
Proof. reflexivity. Qed.

Lemma interleaved_last k videos :
  last (interleaved k videos) = inl <$> last videos.
Proof.
  induction videos as [|u [|v rest] IH]; [reflexivity..|].
  rewrite interleaved_cons, (last_cons (inl u)), (last_cons (inr k)), IH.
  rewrite (last_cons_cons u v rest).
  destruct (last (v :: rest)) as [x|] eqn:Hlast; [reflexivity|].
  by apply last_None in Hlast.
Qed.

Lemma interleaved_sleeps k videos :
  length (List.filter (fun x => match x with inr _ => true | inl _ => false end)
            (interleaved k videos))
  = length videos - 1.
Proof.
  induction videos as [|u [|v rest] IH]; [reflexivity..|].
  rewrite interleaved_cons. cbn [List.filter length] in *. rewrite IH. lia.
Qed.

Section Schedule.

Variable E : Env.

Lemma download_video_schedule self url mq s :
  schedule (evs (download_video E self url mq s)) = [inl url].
Proof.
  destruct (download_video_events E self url mq s) as (tr & -> & H).
  change (Call (download_video_m url) :: tr)
    with ([Call (download_video_m url)] ++ tr).
  by rewrite schedule_app, (schedule_quiet tr H).
Qed.

Lemma download_and_delete_schedule self i url s :
  schedule (evs (download_and_delete E self i url s)) = [inl url].
Proof.
  pose proof (download_video_schedule self url true s) as Hsched.
  destruct (res (download_video E self url true s)) as [e|r] eqn:Hres.
  - unfold download_and_delete. rewrite !run_log, !evs_after.
    rewrite (run_bind_inl _ _ _ _ Hres). cbn [evs].
    rewrite !schedule_app, Hsched. reflexivity.
  - destruct (truthy r) eqn:Htruthy.
    + rewrite (download_and_delete_success E self i url s r Hres Htruthy).
      cbn [evs]. rewrite !schedule_app, Hsched.
      by destruct (res (os_remove E _ _)).
    + rewrite (download_and_delete_failure E self i url s r Hres Htruthy).
      cbn [evs]. by rewrite !schedule_app, Hsched.
Qed.

(** The loop from the [i]-th of [n] videos on: what it schedules is a
    beginning of the interleaving, and all of it when the loop ends. *)
Lemma download_loop_schedule self n videos : forall i s,
  i + length videos = S n ->
  let o := download_loop E self n i videos s in
  schedule (evs o) `prefix_of` interleaved 10 videos
  /\ (res o = inr tt -> schedule (evs o) = interleaved 10 videos).
Proof.
  induction videos as [|v rest IH]; intros i s Hlen; cbn zeta.
  - split; [apply prefix_nil|reflexivity].
  - cbn [download_loop]. rewrite run_bind.
    pose proof (download_and_delete_schedule self i v s) as Hhead.
    destruct (res (download_and_delete E self i v s)) as [e|[]].
    { cbn [evs res]. rewrite Hhead. split; [|discriminate].
      destruct rest; [done|]. rewrite interleaved_cons.
      apply (prefix_cons (inl v)), prefix_nil. }
    rewrite evs_after, res_after, schedule_app, Hhead, run_bind.
    rewrite wait_between_run. cbn [length] in Hlen.
    destruct rest as [|v' rest'].
    + replace (i <? n)%nat with false
        by (symmetry; apply Nat.ltb_ge; cbn in Hlen; lia).
      cbn. split; [done|reflexivity].
    + replace (i <? n)%nat with true
        by (symmetry; apply Nat.ltb_lt; cbn in Hlen; lia).
      rewrite interleaved_cons. cbn [res evs st].
      destruct (env_sleep_interrupt E _).
      * cbn. split; [|discriminate].
        apply (prefix_cons (inl v)), (prefix_cons (inr 10)), prefix_nil.
      * rewrite evs_after, res_after, schedule_app.
        destruct (IH (S i)
                    (ticked (st (download_and_delete E self i v s))))
          as [Hpre Hall]; [lia|].
        cbn [app schedule omap]. split.
        -- by apply (prefix_cons (inl v)), (prefix_cons (inr 10)).
        -- intros Hres. by rewrite (Hall Hres).
Qed.

End Schedule.

(** ** Files of the workspace *)

Lemma find_hidden_none (entries : list file) :
  forallb (fun e => hidden (fst e)) entries = true ->
  List.find (fun n => negb (hidden n)) (List.map fst entries) = None.
Proof.
  induction entries as [|e rest IH]; [reflexivity|]. cbn.
  intros [-> Hrest]%andb_true_iff. cbn. by apply IH.
Qed.

Lemma find_entry name (entries : list file) :
  In name (List.map fst entries) ->
  exists e, List.find (fun e => String.eqb (fst e) name) entries = Some e.
Proof.
  induction entries as [|e rest IH]; [intros []|]. cbn.
  destruct (String.eqb_spec (fst e) name) as [->|Hne]; [by eexists|].
  intros [?|Hin]; [done|]. by apply IH.
Qed.

Lemma lookup_file_join dir name (f : FS) entries :
  Path.wf_dir dir = true -> Path.wf_name name = true ->
  f !! dir = Some entries ->
  lookup_file (Path.join dir name) f
  = List.find (fun e => String.eqb (fst e) name) entries.
Proof.
  intros Hdir Hname Hf. unfold lookup_file.
  by rewrite (PathFacts.dirname_join dir name Hdir Hname), Hf,
    (PathFacts.basename_join dir name Hdir Hname).
Qed.

Lemma count_sleep_schedule tr :
  count is_sleep tr
  = length (List.filter (fun x => match x with inr _ => true | inl _ => false end)
              (schedule tr)).
Proof.
  unfold count. induction tr as [|e tr IH]; [reflexivity|].
  destruct e as [[]| | | | | | | | | |]; cbn; by rewrite ?IH.
Qed.

(** * The claims *)

(** C10. [cleanup] is total and idempotent: it returns without raising in
    every world and every state; called when the workspace directory does
    not exist it leaves the filesystem as it is; and a second call after a
    call whose [rmtree] was not refused finds the directory gone and changes
    nothing. *)
Theorem cleanup_total_idempotent (E : Env) (self : YouTubeDownloader) (s : St) :
  res (cleanup E self s) = inr tt
  /\ (fs s !! download_dir self = None -> fs (st (cleanup E self s)) = fs s)
  /\ (env_rmtree_fault E (clock s) (download_dir self) = None ->
      let s' := st (cleanup E self s) in
      fs s' !! download_dir self = None
      /\ fs (st (cleanup E self s')) = fs s').
Proof.
  split; [apply cleanup_returns|]. split; [apply cleanup_absent|].
  intros Hok s'. assert (Hgone : fs s' !! download_dir self = None).
  { subst s'. by apply cleanup_removes. }
  split; [exact Hgone|]. by apply cleanup_absent.
Qed.

Lemma cleanup_total_idempotent_witness :
  Sample.stale.(fs) !! Sample.workspace = Some [Sample.video]
  /\ res (cleanup Sample.fine Sample.self Sample.stale) = inr tt
  /\ fs (st (cleanup Sample.fine Sample.self
               (st (cleanup Sample.fine Sample.self Sample.stale))))
     = fs (st (cleanup Sample.fine Sample.self Sample.stale)).
Proof.
  destruct (cleanup_total_idempotent Sample.fine Sample.self Sample.stale)
    as (Hres & _ & Htwice).
  split; [reflexivity|]. split; [exact Hres|].
  apply Htwice. reflexivity.
Defined.

(** C6. When the creation of the workspace directory fails, [main] ends
    with that exception uncaught, the exit status of the process is not
    zero, and the run has made no probe attempt and no download attempt. *)
Theorem workspace_failure_is_fatal (E : Env) (s : St) (e : exn) :
  res (tempfile_mkdtemp E s) = inl e ->
  res (main E s) = inl e
  /\ exit_status (main E s) <> 0%Z
  /\ forallb (fun ev => negb (is_probe_attempt ev || is_download_attempt ev))
       (evs (main E s)) = true.
Proof.
  intros H. destruct (main_aborts E s e H) as [Hres Hevs].
  split; [exact Hres|]. split.
  - unfold exit_status. rewrite Hres. by destruct e.
  - by rewrite Hevs.
Qed.

Lemma workspace_failure_is_fatal_witness :
  res (tempfile_mkdtemp Sample.unwritable Sample.empty)
    = inl (Exception "PermissionError: [Errno 13] Permission denied")
  /\ exit_status (main Sample.unwritable Sample.empty) = 1%Z
  /\ count is_probe_attempt (evs (main Sample.unwritable Sample.empty)) = 0.
Proof.
  assert (H : res (tempfile_mkdtemp Sample.unwritable Sample.empty)
              = inl (Exception "PermissionError: [Errno 13] Permission denied"))
    by reflexivity.
  destruct (workspace_failure_is_fatal _ _ _ H) as (Hres & _ & _).
  split; [exact H|]. split.
  - unfold exit_status. by rewrite Hres.
  - vm_compute. reflexivity.
Defined.

(** C3, as the spec states it, fails: in a run where the workspace cannot
    be created, [cleanup] is never called. *)
Lemma cleanup_not_called_without_workspace :
  count is_cleanup_call (evs (main Sample.unwritable Sample.empty)) = 0
  /\ count is_cleanup_call (evs (main Sample.unwritable Sample.empty)) <> 1.
Proof. vm_compute. split; [reflexivity|discriminate]. Qed.

(** C3, amended. In every run in which the workspace was created,
    [cleanup] is called exactly once before [main] returns, and [main]
    returns normally: whether the probe failed, a download failed, an
    unexpected error was raised or the user interrupted the run. *)
Theorem cleanup_called_exactly_once (E : Env) (s : St) (d : YouTubeDownloader) :
  res (init E s) = inr d ->
  count is_cleanup_call (evs (main E s)) = 1 /\ res (main E s) = inr tt.
Proof.
  intros Hinit. rewrite (main_run E s d Hinit). cbn [res evs].
  split; [|reflexivity].
  destruct (init_returns E s d Hinit) as [-> _].
  rewrite !count_app, cleanup_called_once.
  rewrite (count_none is_cleanup_call in_try (evs (main_guarded E d _)));
    [reflexivity| |apply main_guarded_alphabet].
  by intros [[]| [] | | | | | | | | |].
Qed.

Lemma cleanup_called_exactly_once_witness :
  res (init Sample.fine Sample.empty) = inr Sample.self
  /\ count is_cleanup_call (evs (main Sample.fine Sample.empty)) = 1.
Proof.
  assert (H : res (init Sample.fine Sample.empty) = inr Sample.self)
    by reflexivity.
  split; [exact H|].
  exact (proj1 (cleanup_called_exactly_once _ _ _ H)).
Defined.

(** C2. In every run in which [test_youtube_access] returns [False], the
    download loop is not entered: the trace of [main] holds no call of
    [download_video] and no call of the library's [download]. *)
Theorem no_download_without_access (E : Env) (s : St) (d : YouTubeDownloader) :
  res (init E s) = inr d ->
  res (test_youtube_access E d (st (init E s))) = inr false ->
  count is_download_attempt (evs (main E s)) = 0.
Proof.
  intros Hinit Hprobe. rewrite (main_run E s d Hinit). cbn [evs].
  destruct (init_returns E s d Hinit) as [-> _].
  rewrite !count_app.
  rewrite (count_none is_download_attempt in_cleanup (evs (cleanup E d _)));
    [| by intros [[]| [] | | | | | | | | |] | apply cleanup_alphabet].
  rewrite main_guarded_run, (main_try_no_access E d _ Hprobe). cbn [evs res].
  rewrite app_nil_r, !count_app.
  rewrite (count_none is_download_attempt in_probe
             (evs (test_youtube_access E d _)));
    [reflexivity| |apply test_youtube_access_alphabet].
  by intros [[]| [] | | | | | | | | |].
Qed.

Lemma no_download_without_access_witness :
  res (test_youtube_access Sample.blocked Sample.self
         (st (init Sample.blocked Sample.empty))) = inr false
  /\ count is_download_attempt (evs (main Sample.blocked Sample.empty)) = 0.
Proof.
  assert (H1 : res (init Sample.blocked Sample.empty) = inr Sample.self)
    by reflexivity.
  assert (H2 : res (test_youtube_access Sample.blocked Sample.self
                      (st (init Sample.blocked Sample.empty))) = inr false)
    by (vm_compute; reflexivity).
  split; [exact H2|].
  exact (no_download_without_access _ _ _ H1 H2).
Defined.

(** C4. For every list of probe URLs: as soon as one URL succeeds after
    failures only, [test_youtube_access] returns [True] and the library has
    been asked about the URLs up to that one and no later one; while the
    URLs fail, the next one is attempted; and [False] is returned exactly
    when the extraction fails for every URL of the list. *)
Theorem probe_short_circuits (E : Env) (self : YouTubeDownloader)
    (urls : list string) (s : St) :
  let o := test_youtube_access_on E urls self s in
  let failed_before k :=
    forall j u, j < k -> urls !! j = Some u ->
                probe_fails E (clock s + j) u = true in
  (forall k url,
      urls !! k = Some url ->
      probe_succeeds E (clock s + k) url = true ->
      failed_before k ->
      res o = inr true /\ attempts (evs o) = take (S k) urls)
  /\ (forall k url,
      urls !! k = Some url -> failed_before k ->
      attempts (evs o) !! k = Some url)
  /\ (res o = inr false <->
      forall j u, urls !! j = Some u -> probe_fails E (clock s + j) u = true).
Proof.
  intros o failed_before. subst o failed_before.
  destruct (test_youtube_access_run E urls self s) as [-> ->].
  split; [|split].
  - intros k url. apply test_loop_first_success.
  - intros k url. apply test_loop_advances.
  - apply test_loop_all_fail.
Qed.

Lemma probe_short_circuits_witness :
  res (test_youtube_access Sample.flaky Sample.self Sample.ready) = inr true
  /\ attempts (evs (test_youtube_access Sample.flaky Sample.self Sample.ready))
     = test_urls
  /\ attempts (evs (test_youtube_access Sample.fine Sample.self Sample.ready))
     = take 1 test_urls.
Proof.
  destruct (probe_short_circuits Sample.flaky Sample.self test_urls Sample.ready)
    as (Hflaky & _ & _).
  destruct (probe_short_circuits Sample.fine Sample.self test_urls Sample.ready)
    as (Hfine & _ & _).
  destruct (Hflaky 1 "https://www.youtube.com/watch?v=jNQXAC9IVRw")
    as [Hres Hatt]; [reflexivity|reflexivity| |].
  { intros [|j] u Hj Hu; [reflexivity|lia]. }
  destruct (Hfine 0 "https://www.youtube.com/watch?v=dQw4w9WgXcQ")
    as [_ Hatt']; [reflexivity|reflexivity| |].
  { intros j u Hj Hu. lia. }
  split; [exact Hres|]. split; [exact Hatt|exact Hatt'].
Defined.

(** C8. For every download list, the loop schedules the videos in order
    with one sleep of ten seconds between two neighbours: what a run
    schedules is always a beginning of that interleaving, and a loop that
    runs to its end has scheduled all of it, so it has slept once less than
    it has downloaded and the last thing it scheduled is the last video,
    not a sleep. *)
Theorem delay_between_downloads_only (E : Env) (self : YouTubeDownloader)
    (videos : list string) (s : St) :
  let o := download_loop E self (length videos) 1 videos s in
  schedule (evs o) `prefix_of` interleaved 10 videos
  /\ (res o = inr tt ->
      schedule (evs o) = interleaved 10 videos
      /\ last (schedule (evs o)) = inl <$> last videos
      /\ count is_sleep (evs o) = length videos - 1).
Proof.
  intros o. subst o.
  destruct (download_loop_schedule E self (length videos) videos 1 s)
    as [Hpre Hall]; [reflexivity|].
  split; [exact Hpre|]. intros Hres. specialize (Hall Hres).
  rewrite count_sleep_schedule, Hall.
  split; [reflexivity|]. split.
  - apply interleaved_last.
  - apply interleaved_sleeps.
Qed.

Lemma delay_between_downloads_only_witness :
  res (download_loop Sample.fine Sample.self 2 1 test_videos Sample.ready)
    = inr tt
  /\ schedule
       (evs (download_loop Sample.fine Sample.self 2 1 test_videos Sample.ready))
     = [inl "https://www.youtube.com/watch?v=dQw4w9WgXcQ"; inr 10;
        inl "https://www.youtube.com/watch?v=jNQXAC9IVRw"].
Proof.
  assert (H : res (download_loop Sample.fine Sample.self 2 1 test_videos
                     Sample.ready) = inr tt) by (vm_compute; reflexivity).
  split; [exact H|].
  destruct (delay_between_downloads_only Sample.fine Sample.self test_videos
              Sample.ready) as [_ Hall].
  exact (proj1 (Hall H)).
Defined.

(** C5. When both calls into the library have returned, the download
    without raising, and the workspace then lists no file that is not
    hidden, [download_video] returns [None], and the last thing it does is
    to log the error that the downloaded file was not found. *)
Theorem missing_artifact_is_failure (E : Env) (self : YouTubeDownloader)
    (url : string) (max_quality : bool) (s : St) (inf : info) (f' : FS)
    (entries : list file) :
  env_extract_info E (clock s) (download_opts self max_quality) url
    = inr (Some inf) ->
  env_download E (S (clock s)) (download_opts self max_quality) url (fs s)
    = (f', None) ->
  f' !! download_dir self = Some entries ->
  forallb (fun e => hidden (fst e)) entries = true ->
  let o := download_video E self url max_quality s in
  res o = inr None
  /\ last (evs o) = Some (Log ERROR "❌ Downloaded file not found!" []).
Proof.
  intros Hinfo Hdown Hdir Hhidden.
  destruct (download_video_run E self url max_quality s inf f' Hinfo Hdown)
    as [_ Hscan].
  by rewrite Hdir, (find_hidden_none entries Hhidden) in Hscan.
Qed.

Lemma missing_artifact_is_failure_witness :
  res (download_video Sample.idle Sample.self Sample.url true Sample.ready)
    = inr None
  /\ last (evs (download_video Sample.idle Sample.self Sample.url true
                  Sample.ready))
     = Some (Log ERROR "❌ Downloaded file not found!" []).
Proof.
  apply (missing_artifact_is_failure Sample.idle Sample.self Sample.url true
           Sample.ready Sample.meta (Sample.writes [] (fs Sample.ready)) []);
    vm_compute; reflexivity.
Defined.

(** C9, as the spec states it, fails: a file that is not hidden waits in
    the workspace, and still [download_video] returns [None], once because
    the metadata request answers [None], once because the download raises. *)
Lemma stale_file_not_reported_when_library_fails :
  fs Sample.stale !! Sample.workspace = Some [Sample.video]
  /\ hidden (fst Sample.video) = false
  /\ res (download_video More.mute Sample.self Sample.url true Sample.stale)
     = inr None
  /\ res (download_video More.crashing Sample.self Sample.url true Sample.stale)
     = inr None.
Proof. vm_compute. repeat split; reflexivity. Qed.

(** C9, amended. [download_video] does not check that the file it reports
    comes from the current call: when the workspace already holds a file
    that is not hidden before the call, and the library returns from both
    calls (the metadata request with a record, the download without
    raising) having written nothing, the result is the path of the first
    such file of the listing. *)
Theorem stale_file_is_reported (E : Env) (self : YouTubeDownloader)
    (url : string) (max_quality : bool) (s : St) (inf : info)
    (entries : list file) (filename : string) :
  fs s !! download_dir self = Some entries ->
  List.find (fun n => negb (hidden n)) (List.map fst entries) = Some filename ->
  Path.wf_dir (download_dir self) = true ->
  Path.wf_name filename = true ->
  env_extract_info E (clock s) (download_opts self max_quality) url
    = inr (Some inf) ->
  env_download E (S (clock s)) (download_opts self max_quality) url (fs s)
    = (fs s, None) ->
  res (download_video E self url max_quality s)
  = inr (Some (Path.join (download_dir self) filename)).
Proof.
  intros Hdir Hfind Hwfd Hwfn Hinfo Hdown.
  destruct (download_video_run E self url max_quality s inf (fs s) Hinfo Hdown)
    as [_ Hscan].
  rewrite Hdir, Hfind in Hscan. cbn zeta in Hscan.
  rewrite (lookup_file_join _ _ _ entries Hwfd Hwfn Hdir) in Hscan.
  apply find_some in Hfind as [Hin _].
  destruct (find_entry filename entries Hin) as [e He].
  by rewrite He in Hscan.
Qed.

Lemma stale_file_is_reported_witness :
  fs Sample.stale !! Sample.workspace = Some [Sample.video]
  /\ res (download_video Sample.idle Sample.self Sample.url true Sample.stale)
     = inr (Some "/tmp/tmpk3x9q2ab/Me at the zoo.mp4").
Proof.
  split; [reflexivity|].
  apply (stale_file_is_reported Sample.idle Sample.self Sample.url true
           Sample.stale Sample.meta [Sample.video] "Me at the zoo.mp4");
    vm_compute; reflexivity.
Defined.

(** C1, as the spec states it, fails in two ways: a file whose removal the
    system refuses stays in the workspace, and so does any other file the
    library left next to the one [download_video] reported. *)
Lemma artifact_survives_iteration :
  (res (download_video Sample.undeletable Sample.self Sample.url true
          Sample.ready)
   = inr (Some "/tmp/tmpk3x9q2ab/Me at the zoo.mp4")
   /\ fs (st (download_and_delete Sample.undeletable Sample.self 1 Sample.url
                Sample.ready)) !! Sample.workspace
      = Some [Sample.video])
  /\ (res (download_video Sample.littering Sample.self Sample.url true
             Sample.ready)
      = inr (Some "/tmp/tmpk3x9q2ab/Me at the zoo.mp4")
      /\ fs (st (download_and_delete Sample.littering Sample.self 1 Sample.url
                   Sample.ready)) !! Sample.workspace
         = Some [Sample.part]).
Proof. vm_compute. repeat split; reflexivity. Qed.

(** C1, amended. For every URL on which [download_video] returns a
    success result: if the file it reports is the only file of the
    workspace and the system does not refuse its removal, the workspace
    holds no file once the delete step of the iteration is over. *)
Theorem artifact_deleted_after_iteration (E : Env) (self : YouTubeDownloader)
    (i : nat) (url : string) (s : St) (file_path name : string) (size : N) :
  let o := download_video E self url true s in
  res o = inr (Some file_path) ->
  fs (st o) !! download_dir self = Some [(name, size)] ->
  env_remove_fault E (clock (st o)) file_path = None ->
  Path.wf_dir (download_dir self) = true ->
  Path.wf_name name = true ->
  fs (st (download_and_delete E self i url s)) !! download_dir self = Some [].
Proof.
  intros o Hres Hdir Hfault Hwfd Hwfn. subst o.
  destruct (download_video_success E self url true s file_path Hres)
    as (entries & filename & Hdir' & Hfind & ->).
  rewrite Hdir in Hdir'. injection Hdir' as <-.
  cbn [List.find List.map fst] in Hfind.
  destruct (negb (hidden name)); [|discriminate].
  injection Hfind as <-.
  rewrite (download_and_delete_success E self i url s _ Hres);
    [|cbn; by rewrite (PathFacts.join_nonempty _ _ Hwfd Hwfn)].
  cbn [st default from_option id]. rewrite os_remove_run, Hfault.
  rewrite (lookup_file_join _ _ _ _ Hwfd Hwfn Hdir).
  rewrite (PathFacts.dirname_join _ _ Hwfd Hwfn), Hdir.
  cbn [List.find fst]. rewrite String.eqb_refl. cbn [st fs].
  rewrite lookup_insert_eq, (PathFacts.basename_join _ _ Hwfd Hwfn).
  unfold remove_entry. cbn. by rewrite String.eqb_refl.
Qed.

Lemma artifact_deleted_after_iteration_witness :
  res (download_video Sample.fine Sample.self Sample.url true Sample.ready)
    = inr (Some "/tmp/tmpk3x9q2ab/Me at the zoo.mp4")
  /\ fs (st (download_and_delete Sample.fine Sample.self 1 Sample.url
               Sample.ready)) !! Sample.workspace
     = Some [].
Proof.
  split; [vm_compute; reflexivity|].
  apply (artifact_deleted_after_iteration Sample.fine Sample.self 1 Sample.url
           Sample.ready "/tmp/tmpk3x9q2ab/Me at the zoo.mp4"
           "Me at the zoo.mp4" 791367%N);
    vm_compute; reflexivity.
Defined.

(** C7, as the spec states it, fails: in a run where every removal is
    refused, nothing is logged at the warning level. *)
Lemma delete_failure_leaves_no_warning :
  res (os_remove Sample.undeletable "/tmp/tmpk3x9q2ab/Me at the zoo.mp4"
         (st (download_video Sample.undeletable Sample.self Sample.url true
                Sample.ready)))
  = inl (Exception "PermissionError: [Errno 1] Operation not permitted")
  /\ count is_remove (evs (main Sample.undeletable Sample.empty)) = 2
  /\ count is_warning (evs (main Sample.undeletable Sample.empty)) = 0.
Proof. vm_compute. repeat split; reflexivity. Qed.

(** C7, amended. In the download loop a failure while deleting the file of
    the iteration is swallowed without a word: the iteration ends normally,
    its last event is the failed removal, it logs no warning, and the loop
    goes on with the wait and the next URL. *)
Theorem delete_failure_is_swallowed (E : Env) (self : YouTubeDownloader)
    (n i : nat) (url : string) (rest : list string) (s : St)
    (file_path : string) (e : exn) :
  let o := download_video E self url true s in
  res o = inr (Some file_path) ->
  truthy (Some file_path) = true ->
  res (os_remove E file_path (st o)) = inl e ->
  let it := download_and_delete E self i url s in
  res it = inr tt
  /\ last (evs it) = Some (Remove file_path)
  /\ count is_warning (evs it) = 0
  /\ download_loop E self n i (url :: rest) s
     = after (evs it)
         ((wait_between E i n ≫= fun _ => download_loop E self n (S i) rest)
            (st it)).
Proof.
  intros o Hres Htruthy Hfail it. subst o it.
  assert (Hit : res (download_and_delete E self i url s) = inr tt).
  { by rewrite (download_and_delete_success E self i url s _ Hres Htruthy). }
  split; [exact Hit|]. split; [|split].
  - rewrite (download_and_delete_success E self i url s _ Hres Htruthy).
    cbn [evs default from_option id].
    rewrite Hfail, app_nil_r, !last_app. reflexivity.
  - rewrite (download_and_delete_success E self i url s _ Hres Htruthy).
    cbn [evs default from_option id]. rewrite Hfail, !count_app.
    rewrite (count_none is_warning in_try (evs (download_video E self url true s)));
      [reflexivity| |apply download_video_alphabet].
    by intros [[]| [] | | | | | | | | |].
  - cbn [download_loop]. by rewrite (run_bind_inr _ _ _ _ Hit).
Qed.

Lemma delete_failure_is_swallowed_witness :
  res (download_and_delete Sample.undeletable Sample.self 1 Sample.url
         Sample.ready) = inr tt
  /\ last (evs (download_and_delete Sample.undeletable Sample.self 1 Sample.url
                  Sample.ready))
     = Some (Remove "/tmp/tmpk3x9q2ab/Me at the zoo.mp4").
Proof.
  destruct (delete_failure_is_swallowed Sample.undeletable Sample.self 2 1
              Sample.url [Sample.url] Sample.ready
              "/tmp/tmpk3x9q2ab/Me at the zoo.mp4"
              (Exception "PermissionError: [Errno 1] Operation not permitted"))
    as (Hres & Hlast & _); [vm_compute; reflexivity..|].
  split; [exact Hres|exact Hlast].
Defined.


(** * Further properties *)

(** ** The life of the workspace *)

Lemma init_raises_inv (E : Env) (s : St) (e : exn) :
  res (init E s) = inl e -> res (tempfile_mkdtemp E s) = inl e.
Proof.
  unfold init. rewrite run_bind.
  destruct (res (tempfile_mkdtemp E s)) as [e'|d]; [by intros [= ->]|].
  rewrite res_after, run_log, res_after. discriminate.
Qed.

(** X1. The exit status of [main] is zero exactly when the workspace
    directory could be created: a failed probe, failed downloads and an
    interrupt all end with status zero. *)
Theorem exit_status_zero_iff_workspace (E : Env) (s : St) :
  exit_status (main E s) = 0%Z <-> exists d, res (init E s) = inr d.
Proof.
  unfold exit_status. destruct (res (init E s)) as [e|d] eqn:Hinit.
  - apply init_raises_inv in Hinit.
    destruct (main_aborts E s e Hinit) as [-> _].
    split; [by destruct e|]. by intros [d [=]].
  - rewrite (main_run E s d Hinit). cbn. split; [by exists d|done].
Qed.

(** X2. When [shutil.rmtree] is not refused, the workspace directory no
    longer exists when [main] returns, whatever happened in between. *)
Theorem workspace_removed_when_main_returns (E : Env) (s : St)
    (d : YouTubeDownloader) :
  res (init E s) = inr d ->
  (forall t, env_rmtree_fault E t (download_dir d) = None) ->
  fs (st (main E s)) !! download_dir d = None.
Proof.
  intros Hinit Hok. rewrite (main_run E s d Hinit). cbn [st].
  apply cleanup_removes, Hok.
Qed.

Lemma workspace_removed_when_main_returns_witness :
  fs (st (init Sample.fine Sample.empty)) !! Sample.workspace = Some []
  /\ fs (st (main Sample.fine Sample.empty)) !! Sample.workspace = None.
Proof.
  split; [reflexivity|].
  apply (workspace_removed_when_main_returns Sample.fine Sample.empty
           Sample.self); [reflexivity|].
  intros t. reflexivity.
Defined.

(** X3. When [shutil.rmtree] fails on the workspace, [cleanup] still
    returns: it logs the failure once, at the warning level and with the
    message of the error. The workspace directory is still there; of its
    entries, those that [rmtree] had unlinked before it failed are gone. *)
Theorem cleanup_failure_is_warned (E : Env) (self : YouTubeDownloader)
    (s : St) (entries : list file) (msg : string) :
  fs s !! download_dir self = Some entries ->
  env_rmtree_fault E (clock s) (download_dir self) = Some msg ->
  let o := cleanup E self s in
  res o = inr tt
  /\ evs o =
       [Call cleanup_m; Exists (download_dir self); Rmtree (download_dir self);
        Log WARNING "⚠️ Cleanup failed: {e}" [AStr msg]]
  /\ fs (st o) !! download_dir self
     = Some (List.filter
               (fun e =>
                  negb (env_rmtree_unlinked E (clock s)
                          (Path.join (download_dir self) (fst e))))
               entries).
Proof.
  intros Hdir Hfault o. subst o. rewrite cleanup_cases. cbn zeta.
  rewrite Hdir, Hfault. cbn [res evs st fs].
  split; [reflexivity|]. split; [reflexivity|]. by apply remove_some_left.
Qed.

Lemma cleanup_failure_is_warned_witness :
  fs (st (cleanup More.sticky Sample.self Sample.stale)) !! Sample.workspace
    = Some []
  /\ count is_warning (evs (cleanup More.sticky Sample.self Sample.stale)) = 1.
Proof.
  destruct (cleanup_failure_is_warned More.sticky Sample.self Sample.stale
              [Sample.video] "OSError: [Errno 16] Device or resource busy")
    as (_ & Hevs & Hleft); [reflexivity|reflexivity|].
  split; [exact Hleft|rewrite Hevs; reflexivity].
Defined.



(** ** More on one download *)

Lemma find_visible_split (entries : list file) (name : string) :
  List.find (fun n => negb (hidden n)) (List.map fst entries) = Some name ->
  exists before size rest,
    entries = before ++ (name, size) :: rest
    /\ forallb (fun e => hidden (fst e)) before = true
    /\ hidden name = false.
Proof.
  induction entries as [|[n sz] rest IH]; [discriminate|].
  cbn [List.find List.map fst]. destruct (hidden n) eqn:Hn; cbn [negb].
  - intros Hfind. destruct (IH Hfind) as (before & size & rest' & -> & Hb & Hv).
    exists ((n, sz) :: before), size, rest'.
    split; [reflexivity|]. split; [|exact Hv].
    cbn [forallb fst]. by rewrite Hn, Hb.
  - intros [= <-]. by exists [], sz, rest.
Qed.

Lemma find_downloaded_download self names :
  emits_only in_download (find_downloaded self names).
Proof.
  induction names as [|filename rest IH]; cbn [find_downloaded].
  - alphabet.
  - destruct (negb (hidden filename)); [|exact IH].
    unfold os_path_getsize. alphabet.
Qed.

(** [download_video] removes nothing, creates no directory and does not
    sleep. *)
Lemma download_video_trace E self url mq s :
  exists tr,
    evs (download_video E self url mq s) = Call (download_video_m url) :: tr
    /\ forallb in_download tr = true.
Proof.
  unfold download_video. rewrite run_emit, evs_after.
  eexists. split; [reflexivity|].
  match goal with
  | |- forallb ?P (evs (?m s)) = true => revert s; change (emits_only P m)
  end.
  pose proof (find_downloaded_download self).
  unfold ydl_extract_info, ydl_download, os_listdir, info_get. alphabet.
Qed.

(** How [download_video] can end. *)
Lemma download_video_outcomes (E : Env) (self : YouTubeDownloader)
    (url : string) (max_quality : bool) (s : St) :
  let o := download_video E self url max_quality s in
  let opts := download_opts self max_quality in
  (forall msg, res o <> inl (Exception msg))
  /\ (res o = inl KeyboardInterrupt <->
      env_extract_info E (clock s) opts url = inl KeyboardInterrupt
      \/ (exists inf,
             env_extract_info E (clock s) opts url = inr (Some inf)
             /\ snd (env_download E (S (clock s)) opts url (fs s))
                = Some KeyboardInterrupt)).
Proof.
  intros o opts. subst o opts.
  unfold download_video, ydl_extract_info, ydl_download, os_listdir, info_get.
  unfold_monad. cbn.
  destruct (env_extract_info E (clock s) (download_opts self max_quality) url)
    as [[msg|]|[inf|]]; cbn.
  1, 2, 4: split; [discriminate|]; split;
    [try discriminate; by left|intros [?|(? & ? & ?)]; congruence].
  destruct (env_download E (S (clock s)) (download_opts self max_quality) url
              (fs s)) as [f' [[msg|]|]]; cbn.
  1: split; [discriminate|]; split;
    [discriminate|intros [?|(? & ? & ?)]; congruence].
  1: split; [discriminate|]; split; [right; by exists inf|done].
  destruct (f' !! download_dir self) as [entries|]; cbn.
  2: split; [discriminate|]; split;
    [discriminate|intros [?|(? & ? & ?)]; congruence].
  rewrite find_downloaded_run. cbn zeta.
  destruct (List.find _ (List.map fst entries)) as [filename|]; cbn;
    [destruct (lookup_file _ f'); cbn|];
    (split; [discriminate|]; split;
     [discriminate|intros [?|(? & ? & ?)]; congruence]).
Qed.

(** X5. [download_video] never ends with an [Exception]: whatever the
    library or the filesystem raise is turned into [None]. It ends with
    [KeyboardInterrupt] exactly when one of the two calls into the library
    is interrupted. *)
Theorem download_video_absorbs_exceptions (E : Env) (self : YouTubeDownloader)
    (url : string) (max_quality : bool) (s : St) :
  let o := download_video E self url max_quality s in
  let opts := download_opts self max_quality in
  (forall msg, res o <> inl (Exception msg))
  /\ (res o = inl KeyboardInterrupt <->
      env_extract_info E (clock s) opts url = inl KeyboardInterrupt
      \/ (exists inf,
             env_extract_info E (clock s) opts url = inr (Some inf)
             /\ snd (env_download E (S (clock s)) opts url (fs s))
                = Some KeyboardInterrupt)).
Proof. apply download_video_outcomes. Qed.

(** X6. When the metadata request fails (the library raises an
    [Exception], or answers [None] as it does with [ignoreerrors]), the
    download itself is never requested: [download_video] returns [None]
    after one call into the library, and its last log line is the error
    with the message of the failure. *)
Theorem failed_extraction_skips_download (E : Env) (self : YouTubeDownloader)
    (url : string) (max_quality : bool) (s : St) (msg : string) :
  extraction_failure
    (env_extract_info E (clock s) (download_opts self max_quality) url)
    = Some msg ->
  let o := download_video E self url max_quality s in
  res o = inr None
  /\ st o = ticked s
  /\ count is_ydl_download (evs o) = 0
  /\ last (evs o) = Some (Log ERROR "❌ Download failed: {str(e)}" [AStr msg]).
Proof.
  unfold download_video, ydl_extract_info, ydl_download, os_listdir, info_get.
  unfold_monad. cbn.
  destruct (env_extract_info E (clock s) (download_opts self max_quality) url)
    as [[m|]|[inf|]]; cbn; try discriminate; by intros [= <-].
Qed.

Lemma failed_extraction_skips_download_witness :
  res (download_video More.mute Sample.self Sample.url true Sample.stale)
    = inr None
  /\ count is_ydl_download
       (evs (download_video More.mute Sample.self Sample.url true Sample.stale))
     = 0.
Proof.
  destruct (failed_extraction_skips_download More.mute Sample.self Sample.url
              true Sample.stale "'NoneType' object has no attribute 'get'")
    as (Hres & _ & Hcount & _); [reflexivity|].
  split; [exact Hres|exact Hcount].
Defined.

(** X7. A path [download_video] returns names a file of the workspace as
    the library left it: the first entry of the listing that is not hidden,
    every entry before it being hidden. *)
Theorem reported_file_is_first_visible (E : Env) (self : YouTubeDownloader)
    (url : string) (max_quality : bool) (s : St) (file_path : string) :
  res (download_video E self url max_quality s) = inr (Some file_path) ->
  exists before name size rest,
    fs (st (download_video E self url max_quality s)) !! download_dir self
      = Some (before ++ (name, size) :: rest)
    /\ forallb (fun e => hidden (fst e)) before = true
    /\ hidden name = false
    /\ file_path = Path.join (download_dir self) name.
Proof.
  intros Hres.
  destruct (download_video_success E self url max_quality s file_path Hres)
    as (entries & name & Hdir & Hfind & ->).
  destruct (find_visible_split entries name Hfind)
    as (before & size & rest & -> & Hbefore & Hname).
  by exists before, name, size, rest.
Qed.

Lemma reported_file_is_first_visible_witness :
  exists before name size rest,
    fs (st (download_video Sample.littering Sample.self Sample.url true
              Sample.ready)) !! Sample.workspace
      = Some (before ++ (name, size) :: rest)
    /\ forallb (fun e => hidden (fst e)) before = true
    /\ hidden name = false
    /\ "/tmp/tmpk3x9q2ab/Me at the zoo.mp4" = Path.join Sample.workspace name.
Proof.
  apply (reported_file_is_first_visible Sample.littering Sample.self Sample.url
           true Sample.ready "/tmp/tmpk3x9q2ab/Me at the zoo.mp4").
  vm_compute. reflexivity.
Defined.

(** ** More on one iteration of the loop *)

Lemma entry_name_wf (entries : list file) (name : string) :
  forallb (fun e => Path.wf_name (fst e)) entries = true ->
  In name (List.map fst entries) -> Path.wf_name name = true.
Proof.
  rewrite forallb_forall. intros Hall Hin.
  apply in_map_iff in Hin as (e & <- & He). by apply Hall.
Qed.

(** X8. The delete step removes the file [download_video] reported, and
    nothing else: when the removal is not refused, the filesystem after the
    iteration is the one the download left, with the entries of that name
    taken out of the workspace listing. *)
Theorem delete_step_removes_reported_file_only (E : Env)
    (self : YouTubeDownloader) (i : nat) (url : string) (s : St)
    (file_path : string) (entries : list file) :
  let o := download_video E self url true s in
  res o = inr (Some file_path) ->
  fs (st o) !! download_dir self = Some entries ->
  env_remove_fault E (clock (st o)) file_path = None ->
  Path.wf_dir (download_dir self) = true ->
  forallb (fun e => Path.wf_name (fst e)) entries = true ->
  exists name,
    file_path = Path.join (download_dir self) name
    /\ In name (List.map fst entries)
    /\ fs (st (download_and_delete E self i url s))
       = <[download_dir self := remove_entry name entries]> (fs (st o)).
Proof.
  intros o Hres Hdir Hfault Hwfd Hwf. subst o.
  destruct (download_video_success E self url true s file_path Hres)
    as (entries' & name & Hdir' & Hfind & ->).
  rewrite Hdir in Hdir'. injection Hdir' as <-.
  apply find_some in Hfind as [Hin _].
  pose proof (entry_name_wf entries name Hwf Hin) as Hwfn.
  exists name. split; [reflexivity|]. split; [exact Hin|].
  rewrite (download_and_delete_success E self i url s _ Hres);
    [|cbn; by rewrite (PathFacts.join_nonempty _ _ Hwfd Hwfn)].
  cbn [st default from_option id]. rewrite os_remove_run, Hfault.
  rewrite (lookup_file_join _ _ _ _ Hwfd Hwfn Hdir).
  rewrite (PathFacts.dirname_join _ _ Hwfd Hwfn), Hdir.
  destruct (find_entry name entries Hin) as [e ->]. cbn [st fs].
  by rewrite (PathFacts.basename_join _ _ Hwfd Hwfn).
Qed.

Lemma delete_step_removes_reported_file_only_witness :
  fs (st (download_and_delete Sample.littering Sample.self 1 Sample.url
            More.shared))
  = {[ Sample.workspace := [Sample.part];
       "/home/app" := [("main.py", 6144%N)] ]}.
Proof.
  destruct (delete_step_removes_reported_file_only Sample.littering Sample.self
              1 Sample.url More.shared "/tmp/tmpk3x9q2ab/Me at the zoo.mp4"
              [Sample.part; Sample.video])
    as (name & _ & _ & _); [vm_compute; reflexivity..|].
  vm_compute. reflexivity.
Defined.

(** X9. An iteration whose download failed removes nothing: it logs the
    failure of the video as an error, leaves the state as [download_video]
    left it, and ends normally. *)
Theorem failed_download_deletes_nothing (E : Env) (self : YouTubeDownloader)
    (i : nat) (url : string) (s : St) :
  let o := download_video E self url true s in
  res o = inr None ->
  let it := download_and_delete E self i url s in
  res it = inr tt
  /\ st it = st o
  /\ count is_remove (evs it) = 0
  /\ last (evs it) = Some (Log ERROR "❌ Video #{i} download failed!" [ANat i]).
Proof.
  intros o Hres it. subst o it.
  rewrite (download_and_delete_failure E self i url s None Hres eq_refl).
  cbn [res st evs]. split; [reflexivity|]. split; [reflexivity|]. split.
  - destruct (download_video_trace E self url true s) as (tr & -> & Htr).
    change (Call (download_video_m url) :: tr)
      with ([Call (download_video_m url)] ++ tr).
    rewrite !count_app.
    rewrite (count_none is_remove in_download tr); [reflexivity| |exact Htr].
    by intros [[]| [] | | | | | | | | |].
  - by rewrite !last_app.
Qed.

Lemma failed_download_deletes_nothing_witness :
  res (download_and_delete Sample.blocked Sample.self 1 Sample.url Sample.stale)
    = inr tt
  /\ fs (st (download_and_delete Sample.blocked Sample.self 1 Sample.url
               Sample.stale))
     = fs Sample.stale.
Proof.
  destruct (failed_download_deletes_nothing Sample.blocked Sample.self 1
              Sample.url Sample.stale)
    as (Hres & Hst & _); [vm_compute; reflexivity|].
  split; [exact Hres|]. rewrite Hst. vm_compute. reflexivity.
Defined.

(** ** Which exceptions can leave a function *)

Lemma interrupt_only_ret {A} (a : A) : interrupt_only (mret a).
Proof. intros s msg. discriminate. Qed.

Lemma interrupt_only_emit e : interrupt_only (emit e).
Proof. intros s msg. discriminate. Qed.

Lemma interrupt_only_log lvl fmt args : interrupt_only (log lvl fmt args).
Proof. apply interrupt_only_emit. Qed.

Lemma interrupt_only_bind {A B} (m : M A) (f : A -> M B) :
  interrupt_only m -> (forall a, interrupt_only (f a)) ->
  interrupt_only (m ≫= f).
Proof.
  intros Hm Hf s msg. rewrite run_bind. specialize (Hm s msg).
  destruct (res (m s)) as [e|a]; [cbn; congruence|].
  rewrite res_after. apply Hf.
Qed.

(** An [except Exception] clause, or a bare [except], whose body raises
    no [Exception] stops every [Exception] of the [try]. *)
Lemma interrupt_only_try_except {A} (m : M A) handles (h : exn -> M A) :
  (forall msg, handles (Exception msg) = true) ->
  (forall e, interrupt_only (h e)) ->
  interrupt_only (try_except m [(handles, h)]).
Proof.
  intros Hcatch Hh s msg. unfold try_except.
  destruct (m s) as [[[msg'|]|a] s' tr]; cbn.
  - rewrite Hcatch, res_after. apply Hh.
  - destruct (handles KeyboardInterrupt); [|discriminate].
    rewrite res_after. apply Hh.
  - discriminate.
Qed.

Section Interrupts.

Variable E : Env.

Lemma test_one_interrupt_only i url : interrupt_only (test_one E i url).
Proof.
  unfold test_one. apply interrupt_only_bind; [apply interrupt_only_log|].
  intros _. apply interrupt_only_try_except; [done|].
  intros e. apply interrupt_only_bind; [apply interrupt_only_log|].
  intros _. apply interrupt_only_ret.
Qed.

Lemma test_youtube_access_interrupt_only urls self :
  interrupt_only (test_youtube_access_on E urls self).
Proof.
  unfold test_youtube_access_on.
  apply interrupt_only_bind; [apply interrupt_only_emit|]. intros _.
  apply interrupt_only_bind.
  - generalize 1. induction urls as [|url rest IH]; intros i; cbn [test_loop].
    + apply interrupt_only_ret.
    + apply interrupt_only_bind; [apply test_one_interrupt_only|].
      intros [|]; [apply interrupt_only_ret|apply IH].
  - intros [|]; [apply interrupt_only_ret|].
    apply interrupt_only_bind; [apply interrupt_only_log|].
    intros _. apply interrupt_only_ret.
Qed.

Lemma download_video_interrupt_only self url mq :
  interrupt_only (download_video E self url mq).
Proof.
  intros s msg.
  exact (proj1 (download_video_outcomes E self url mq s) msg).
Qed.

Lemma download_and_delete_interrupt_only self i url :
  interrupt_only (download_and_delete E self i url).
Proof.
  unfold download_and_delete.
  apply interrupt_only_bind; [apply interrupt_only_log|]. intros _.
  apply interrupt_only_bind; [apply interrupt_only_log|]. intros _.
  apply interrupt_only_bind; [apply download_video_interrupt_only|].
  intros r. destruct (truthy r); [|apply interrupt_only_log].
  apply interrupt_only_bind; [apply interrupt_only_log|]. intros _.
  apply interrupt_only_try_except; [done|].
  intros e. apply interrupt_only_ret.
Qed.

Lemma wait_between_interrupt_only i n : interrupt_only (wait_between E i n).
Proof.
  intros s msg. rewrite wait_between_run.
  destruct (i <? n)%nat; [|discriminate].
  by destruct (env_sleep_interrupt E (clock s)).
Qed.

Lemma download_loop_interrupt_only self n videos :
  forall i, interrupt_only (download_loop E self n i videos).
Proof.
  induction videos as [|v rest IH]; intros i; cbn [download_loop].
  - apply interrupt_only_ret.
  - apply interrupt_only_bind; [apply download_and_delete_interrupt_only|].
    intros _.
    apply interrupt_only_bind; [apply wait_between_interrupt_only|].
    intros _. apply IH.
Qed.

Lemma main_try_interrupt_only self : interrupt_only (main_try E self).
Proof.
  unfold main_try, test_youtube_access.
  apply interrupt_only_bind; [apply interrupt_only_log|]. intros _.
  apply interrupt_only_bind; [apply test_youtube_access_interrupt_only|].
  intros ok. destruct (negb ok).
  - repeat (apply interrupt_only_bind; [apply interrupt_only_log|]; intros _).
    apply interrupt_only_ret.
  - apply interrupt_only_bind; [apply interrupt_only_log|]. intros _.
    apply interrupt_only_bind; [apply download_loop_interrupt_only|].
    intros _. apply interrupt_only_log.
Qed.

End Interrupts.

(** X10. No [Exception] leaves the [try] block of [main]: the probe, each
    download and each removal absorb their own. So the clause
    [except Exception] of [main] never runs, and the one thing [main] adds
    to the trace of the block is the notice of an interrupt. *)
Theorem no_exception_leaves_the_try (E : Env) (self : YouTubeDownloader)
    (s : St) :
  let o := main_try E self s in
  (forall msg, res o <> inl (Exception msg))
  /\ main_guarded E self s =
       mkOut (inr tt) (st o)
         (evs o ++
          match res o with
          | inl _ => [Log INFO "⚠️ Download interrupted by user" []]
          | inr _ => []
          end).
Proof.
  intros o. subst o. split; [apply main_try_interrupt_only|].
  rewrite main_guarded_run. cbn zeta.
  pose proof (main_try_interrupt_only E self s) as Hno.
  destruct (res (main_try E self s)) as [[msg|]|]; [|reflexivity..].
  by destruct (Hno msg).
Qed.

(** ** More on the probe and on the loop *)

Lemma test_loop_state E urls : forall i s,
  let o := test_loop E i urls s in
  fs (st o) = fs s
  /\ clock (st o) = clock s + length (attempts (evs o))
  /\ attempts (evs o) `prefix_of` urls.
Proof.
  induction urls as [|url rest IH]; intros i s; cbn zeta.
  - rewrite test_loop_nil. cbn. split; [done|]. split; [lia|done].
  - cbn [test_loop]. rewrite run_bind.
    destruct (test_one_run E i url s) as (_ & Hst & Hatt).
    destruct (res (test_one E i url s)) as [e|[|]].
    + cbn [st evs]. rewrite Hst, Hatt. cbn. split; [done|]. split; [lia|].
      apply (prefix_cons url), prefix_nil.
    + rewrite st_after, evs_after, attempts_app, Hst, Hatt. cbn.
      split; [done|]. split; [lia|]. apply (prefix_cons url), prefix_nil.
    + rewrite st_after, evs_after, attempts_app, Hst, Hatt.
      destruct (IH (S i) (ticked s)) as (Hfs & Hclock & Hpre).
      cbn [ticked fs clock] in *. rewrite Hfs, Hclock. cbn [app length].
      split; [done|]. split; [lia|]. by apply (prefix_cons url).
Qed.

(** X11. The probe only reads metadata: for any list of URLs, it leaves
    the filesystem as it is, makes no filesystem call and no download
    attempt, asks the library once per URL it tries, and tries the URLs in
    the order of the list, each at most once. *)
Theorem probe_is_read_only (E : Env) (urls : list string)
    (self : YouTubeDownloader) (s : St) :
  let o := test_youtube_access_on E urls self s in
  fs (st o) = fs s
  /\ clock (st o) = clock s + length (attempts (evs o))
  /\ attempts (evs o) `prefix_of` urls
  /\ count is_fs_call (evs o) = 0
  /\ count is_download_attempt (evs o) = 0.
Proof.
  intros o. subst o.
  pose proof (test_youtube_access_alphabet E urls self s) as Halpha.
  destruct (test_youtube_access_run E urls self s) as [_ Hatt].
  assert (Hst : st (test_youtube_access_on E urls self s)
                = st (test_loop E 1 urls s)).
  { unfold test_youtube_access_on. rewrite run_emit, st_after, run_bind.
    destruct (test_loop E 1 urls s) as [[e|[|]] s' tr]; reflexivity. }
  rewrite Hst, Hatt.
  destruct (test_loop_state E urls 1 s) as (Hfs & Hclock & Hpre).
  split; [exact Hfs|]. split; [exact Hclock|]. split; [exact Hpre|]. split.
  - apply (count_none is_fs_call in_probe); [|exact Halpha].
    by intros [[]| [] | | | | | | | | |].
  - apply (count_none is_download_attempt in_probe); [|exact Halpha].
    by intros [[]| [] | | | | | | | | |].
Qed.

Lemma download_loop_returns E self n videos :
  (forall t opts u, is_interrupt (env_extract_info E t opts u) = false) ->
  (forall t opts u f, snd (env_download E t opts u f) <> Some KeyboardInterrupt) ->
  (forall t, env_sleep_interrupt E t = false) ->
  forall i s, res (download_loop E self n i videos s) = inr tt.
Proof.
  intros Hinfo Hdown Hsleep.
  induction videos as [|v rest IH]; intros i s; [reflexivity|].
  cbn [download_loop].
  assert (Hit : res (download_and_delete E self i v s) = inr tt).
  { pose proof (download_and_delete_interrupt_only E self i v s) as Hno.
    destruct (download_video_outcomes E self v true s) as [_ Hint].
    destruct (res (download_video E self v true s)) as [[msg|]|r] eqn:Hres.
    - unfold download_and_delete in Hno |- *.
      rewrite !run_log, !res_after, (run_bind_inl _ _ _ _ Hres).
      exfalso. apply (Hno msg).
      by rewrite !run_log, !res_after, (run_bind_inl _ _ _ _ Hres).
    - exfalso. destruct (proj1 Hint eq_refl) as [Hk|(inf & _ & Hk)].
      + specialize (Hinfo (clock s) (download_opts self true) v).
        rewrite Hk in Hinfo. discriminate.
      + by apply Hdown in Hk.
    - destruct (truthy r) eqn:Htruthy.
      + by rewrite (download_and_delete_success E self i v s r Hres Htruthy).
      + by rewrite (download_and_delete_failure E self i v s r Hres Htruthy). }
  rewrite (run_bind_inr _ _ _ _ Hit), res_after, run_bind.
  rewrite wait_between_run, Hsleep.
  destruct (i <? n)%nat; cbn [res evs st]; rewrite res_after; apply IH.
Qed.

(** X12. Failures do not stop the download loop. As long as nobody
    interrupts (neither the library calls nor the sleeps), the loop runs to
    its end whatever fails: every video of the list is attempted once, in
    order, with the sleeps in between. *)
Theorem failures_never_stop_the_loop (E : Env) (self : YouTubeDownloader)
    (videos : list string) (s : St) :
  (forall t opts u, is_interrupt (env_extract_info E t opts u) = false) ->
  (forall t opts u f, snd (env_download E t opts u f) <> Some KeyboardInterrupt) ->
  (forall t, env_sleep_interrupt E t = false) ->
  let o := download_loop E self (length videos) 1 videos s in
  res o = inr tt /\ schedule (evs o) = interleaved 10 videos.
Proof.
  intros Hinfo Hdown Hsleep o. subst o.
  pose proof (download_loop_returns E self (length videos) videos
                Hinfo Hdown Hsleep 1 s) as Hres.
  split; [exact Hres|].
  destruct (download_loop_schedule E self (length videos) videos 1 s)
    as [_ Hall]; [reflexivity|]. by apply Hall.
Qed.

Lemma failures_never_stop_the_loop_witness :
  res (download_video Sample.blocked Sample.self Sample.url true Sample.ready)
    = inr None
  /\ res (download_loop Sample.blocked Sample.self 2 1 test_videos Sample.ready)
     = inr tt
  /\ schedule (evs (download_loop Sample.blocked Sample.self 2 1 test_videos
                      Sample.ready))
     = [inl "https://www.youtube.com/watch?v=dQw4w9WgXcQ"; inr 10;
        inl "https://www.youtube.com/watch?v=jNQXAC9IVRw"].
Proof.
  split; [vm_compute; reflexivity|].
  apply (failures_never_stop_the_loop Sample.blocked Sample.self test_videos
           Sample.ready).
  - intros t opts u. reflexivity.
  - intros t opts u f. cbn. discriminate.
  - intros t. reflexivity.
Defined.

(** X13. An interrupt that reaches the [try] block of [main] ends the run
    in order: [main] logs the notice of the interrupt, calls [cleanup],
    logs its last line and returns, and the exit status is zero. *)
Theorem interrupt_ends_the_run_in_order (E : Env) (s : St)
    (d : YouTubeDownloader) :
  res (init E s) = inr d ->
  let o := main_try E d (st (init E s)) in
  res o = inl KeyboardInterrupt ->
  evs (main E s) =
    [Log INFO "🚀 YouTube Downloader for Railway - Starting..." [];
     Log INFO "🕐 Current time: {datetime.now()}" [AStr (env_now E)];
     Log INFO "🐍 Python version: {sys.version}" [AStr (env_version E)]]
    ++ evs (init E s) ++ evs o
    ++ [Log INFO "⚠️ Download interrupted by user" []]
    ++ evs (cleanup E d (st o))
    ++ [Log INFO "👋 YouTube Downloader finished!" []]
  /\ exit_status (main E s) = 0%Z.
Proof.
  intros Hinit o Hres. subst o. rewrite (main_run E s d Hinit).
  cbn [evs]. rewrite main_guarded_run. cbn [evs st res]. rewrite Hres.
  split; [by rewrite <- !app_assoc|reflexivity].
Qed.

Lemma interrupt_ends_the_run_in_order_witness :
  res (main_try More.impatient Sample.self
         (st (init More.impatient Sample.empty))) = inl KeyboardInterrupt
  /\ exit_status (main More.impatient Sample.empty) = 0%Z
  /\ fs (st (main More.impatient Sample.empty)) !! Sample.workspace = None.
Proof.
  assert (H1 : res (init More.impatient Sample.empty) = inr Sample.self)
    by reflexivity.
  assert (H2 : res (main_try More.impatient Sample.self
                      (st (init More.impatient Sample.empty)))
               = inl KeyboardInterrupt) by (vm_compute; reflexivity).
  split; [exact H2|]. split.
  - exact (proj2 (interrupt_ends_the_run_in_order _ _ _ H1 H2)).
  - vm_compute. reflexivity.
Defined.

(** ** The start of the script *)

Module InstallFacts.
Import Install.

Lemma import_loaded H name l :
  name ∈ modules l -> import H name l = (inr tt, l, [Import name]).
Proof. intros Hin. unfold import. by rewrite bool_decide_eq_true_2. Qed.

(** The four ways [install_ytdlp] can go. *)
Lemma install_ytdlp_cases H l :
  let name := "yt_dlp" in
  let searched := {| modules := modules l; searches := S (searches l) |} in
  let found l' :=
    {| modules := {[ name ]} ∪ modules l'; searches := S (searches l') |} in
  let start :=
    [Import name; Print "📦 Installing yt-dlp..."; CheckCall (pip_install H)] in
  install_ytdlp H l =
    if bool_decide (name ∈ modules l) then
      (inr tt, l, [Import name; Print "✅ yt-dlp already installed"])
    else
      match host_find H (searches l) name with
      | None =>
          (inr tt, found l, [Import name; Print "✅ yt-dlp already installed"])
      | Some _ =>
          if (host_run H (pip_install H) =? 0)%Z then
            match host_find H (S (searches l)) name with
            | None =>
                (inr tt, found searched,
                 start ++ [Import name; Print "✅ yt-dlp installed successfully"])
            | Some msg =>
                (inl (ImportError msg),
                 {| modules := modules l; searches := S (S (searches l)) |},
                 start ++ [Import name])
            end
          else
            (inl (CalledProcessError (host_run H (pip_install H))
                    (pip_install H)),
             searched, start)
      end.
Proof.
  cbn zeta. unfold install_ytdlp, except_ImportError, seq, import, print,
    check_call.
  destruct (bool_decide ("yt_dlp" ∈ modules l)) eqn:Hloaded; [reflexivity|].
  destruct (host_find H (searches l) "yt_dlp") as [msg|]; [|reflexivity].
  cbn [modules searches]. rewrite Hloaded.
  destruct (host_run H (pip_install H) =? 0)%Z; [|reflexivity].
  by destruct (host_find H (S (searches l)) "yt_dlp").
Qed.

(** Once [install_ytdlp] has returned, the module is loaded. *)
Lemma install_ytdlp_loads H l l' tr :
  install_ytdlp H l = (inr tt, l', tr) -> "yt_dlp" ∈ modules l'.
Proof.
  rewrite install_ytdlp_cases. cbn zeta.
  destruct (bool_decide ("yt_dlp" ∈ modules l)) eqn:Hloaded.
  { intros [= <- _]. by apply bool_decide_eq_true in Hloaded. }
  destruct (host_find H (searches l) "yt_dlp").
  - destruct (host_run H (pip_install H) =? 0)%Z; [|discriminate].
    destruct (host_find H (S (searches l)) "yt_dlp"); [discriminate|].
    intros [= <- _]. cbn. set_solver.
  - intros [= <- _]. cbn. set_solver.
Qed.

Lemma prelude_run H l :
  prelude H l =
    match install_ytdlp H l with
    | (inl e, l', tr) => (inl e, l', tr)
    | (inr _, l', tr) => (inr tt, l', tr ++ [Import "yt_dlp"])
    end.
Proof.
  unfold prelude, seq.
  destruct (install_ytdlp H l) as [[[e|[]] l'] tr] eqn:Hinstall; [reflexivity|].
  by rewrite (import_loaded H "yt_dlp" l' (install_ytdlp_loads H l l' tr Hinstall)).
Qed.

End InstallFacts.

(** X14. [install_ytdlp] runs pip only when the module cannot be imported,
    and then once: no command is run when [yt_dlp] is loaded already or is
    found by the first import. *)
Theorem pip_runs_only_when_module_missing (H : Install.Host)
    (l : Install.Loaded) :
  Install.commands (snd (Install.install_ytdlp H l))
  = if Install.available H l "yt_dlp" then 0 else 1.
Proof.
  rewrite InstallFacts.install_ytdlp_cases. cbn zeta. unfold Install.available.
  destruct (bool_decide ("yt_dlp" ∈ Install.modules l)); [reflexivity|].
  destruct (Install.host_find H (Install.searches l) "yt_dlp");
    [|reflexivity].
  destruct (Install.host_run H (Install.pip_install H) =? 0)%Z; [|reflexivity].
  by destruct (Install.host_find H (S (Install.searches l)) "yt_dlp").
Qed.

(** X15. The script reaches [main] exactly when the module can be imported
    at once, or pip exits with status zero and the import after it finds
    the module; the import of line 24 then never fails, the module being
    loaded. *)
Theorem script_starts_main_iff (H : Install.Host) (E : Env)
    (l : Install.Loaded) (s : St) :
  (exists tr, Install.script H E l s = Install.Started tr (main E s))
  <-> Install.available H l "yt_dlp" = true
      \/ (Install.host_run H (Install.pip_install H) = 0%Z
          /\ Install.host_find H (S (Install.searches l)) "yt_dlp" = None).
Proof.
  unfold Install.script. rewrite InstallFacts.prelude_run.
  rewrite InstallFacts.install_ytdlp_cases. cbn zeta. unfold Install.available.
  destruct (bool_decide ("yt_dlp" ∈ Install.modules l)); cbn [orb].
  { split; [by left|]. intros _. by eexists. }
  destruct (Install.host_find H (Install.searches l) "yt_dlp") as [msg|].
  2: { split; [by left|]. intros _. by eexists. }
  destruct (Z.eqb_spec (Install.host_run H (Install.pip_install H)) 0)
    as [Hrun|Hrun].
  - destruct (Install.host_find H (S (Install.searches l)) "yt_dlp") as [msg'|].
    + split; [by intros [tr [=]]|]. intros [[=]|[_ [=]]].
    + split; [by right|]. intros _. by eexists.
  - split; [by intros [tr [=]]|]. intros [[=]|[? _]]. done.
Qed.

(** X16. When the module is missing and pip exits with a status that is
    not zero, the script ends with the [CalledProcessError] of
    [check_call] before [main] is called: after one failed import, one
    printed line and the pip command, with a process status that is not
    zero. *)
Theorem script_aborts_when_pip_fails (H : Install.Host) (E : Env)
    (l : Install.Loaded) (s : St) :
  Install.available H l "yt_dlp" = false ->
  Install.host_run H (Install.pip_install H) <> 0%Z ->
  Install.script H E l s
  = Install.Aborted
      (Install.CalledProcessError (Install.host_run H (Install.pip_install H))
         (Install.pip_install H))
      [Install.Import "yt_dlp"; Install.Print "📦 Installing yt-dlp...";
       Install.CheckCall (Install.pip_install H)]
  /\ Install.script_exit_status (Install.script H E l s) <> 0%Z.
Proof.
  intros Havail Hrun.
  assert (Hscript : Install.script H E l s
    = Install.Aborted
        (Install.CalledProcessError (Install.host_run H (Install.pip_install H))
           (Install.pip_install H))
        [Install.Import "yt_dlp"; Install.Print "📦 Installing yt-dlp...";
         Install.CheckCall (Install.pip_install H)]).
  { unfold Install.script. rewrite InstallFacts.prelude_run.
    rewrite InstallFacts.install_ytdlp_cases. cbn zeta.
    unfold Install.available in Havail.
    apply orb_false_iff in Havail as [-> Hfind].
    destruct (Install.host_find H (Install.searches l) "yt_dlp");
      [|discriminate].
    by apply Z.eqb_neq in Hrun as ->. }
  split; [exact Hscript|]. by rewrite Hscript.
Qed.

Lemma script_aborts_when_pip_fails_witness :
  Install.script_exit_status
    (Install.script More.offline Sample.fine More.fresh Sample.empty) = 1%Z.
Proof.
  destruct (script_aborts_when_pip_fails More.offline Sample.fine More.fresh
              Sample.empty) as [Hscript _];
    [vm_compute; reflexivity|vm_compute; discriminate|].
  by rewrite Hscript.
Defined.

(** ** Where the library writes, and what [download_video] writes *)

(** X17. The output template handed to the library for a download lies in
    the workspace directory: its directory part is [download_dir] and its
    file part is the title-and-extension pattern. *)
Theorem output_template_in_workspace (self : YouTubeDownloader)
    (max_quality : bool) :
  Path.wf_dir (download_dir self) = true ->
  exists template,
    download_opts self max_quality !! "outtmpl" = Some (PStr template)
    /\ Path.split template = (download_dir self, "%(title)s.%(ext)s").
Proof.
  intros Hwf. eexists. split; [reflexivity|].
  by apply PathFacts.split_join.
Qed.

Lemma output_template_in_workspace_witness :
  download_opts Sample.self true !! "outtmpl"
  = Some (PStr "/tmp/tmpk3x9q2ab/%(title)s.%(ext)s").
Proof.
  destruct (output_template_in_workspace Sample.self true) as (t & Ht & _);
    [reflexivity|].
  vm_compute. reflexivity.
Defined.

(** X18. [download_video] itself writes nothing: the filesystem it leaves
    is the one it found when the metadata request did not return a record
    or was interrupted, and otherwise the one the library's [download]
    left. *)
Theorem download_video_writes_only_through_library (E : Env)
    (self : YouTubeDownloader) (url : string) (max_quality : bool) (s : St) :
  let o := download_video E self url max_quality s in
  let opts := download_opts self max_quality in
  fs (st o) =
    match env_extract_info E (clock s) opts url with
    | inr (Some _) => fst (env_download E (S (clock s)) opts url (fs s))
    | _ => fs s
    end.
Proof.
  intros o opts. subst o opts.
  unfold download_video, ydl_extract_info, ydl_download, os_listdir, info_get.
  unfold_monad. cbn.
  destruct (env_extract_info E (clock s) (download_opts self max_quality) url)
    as [[msg|]|[inf|]]; cbn; try reflexivity.
  destruct (env_download E (S (clock s)) (download_opts self max_quality) url
              (fs s)) as [f' [[msg|]|]]; cbn; try reflexivity.
  destruct (f' !! download_dir self) as [entries|]; cbn; [|reflexivity].
  rewrite find_downloaded_run. cbn zeta.
  destruct (List.find _ (List.map fst entries)) as [filename|]; cbn;
    [|reflexivity].
  by destruct (lookup_file _ f').
Qed.
